(** * golangci-lint's load stage (pkg/lint/load.go), the default exclusion
      patterns (pkg/config) and the govet linter (pkg/golinters), as vendored
      in srizzling/aquarium.

    The Go code is embedded shallowly: pure functions are Rocq functions, a
    [for ... range] loop is a [Fixpoint] over the ranged list, a Go
    [(value, error)] return is a [result], and code that talks to the
    operating system, the go toolchain or another package runs in the monad
    [M], which threads the process state ([World]) and records every
    external call in a trace of [Event]s. Those external functions are the
    fields of the class [Extern]; every statement holds for all of them. *)

From stdpp Require Import gmap strings list fin_maps pretty.
From Stdlib Require Import Ascii String.

Set Warnings "-register-all,-clear-no-such-hyp".

Open Scope string_scope.
Open Scope list_scope.

(** ** Go values *)

(** A Go [error], identified with the text of its [Error()] method. *)
Definition error := string.

(** What a Go call that returns [(v, err)] hands back: [Ok v] stands for
    [(v, nil)], [Err e] for [(zero, e)] with [e] not nil. *)
Inductive result (A : Type) : Type :=
  | Ok (a : A)
  | Err (e : error).
Arguments Ok {A} a.
Arguments Err {A} e.

(** Go's [len(s) == 0] on a slice. *)
Definition len {A} (s : list A) : nat := List.length s.

(** [strings.Join]. *)
Fixpoint strings_Join (elems : list string) (sep : string) : string :=
  match elems with
  | [] => ""
  | [e] => e
  | e :: rest => e +:+ sep +:+ strings_Join rest sep
  end.

(** [fmt]'s [%v] of a [[]string]: the elements, space separated, in
    brackets. *)
Definition fmt_v (l : list string) : string :=
  "[" +:+ strings_Join l " " +:+ "]".

(** ** Package config (src/unnamed/part_000) *)

Module config.

Record ExcludePattern := {
  Pattern : string;
  Linter : string;
  Why : string
}.

Definition DefaultExcludePatterns : list ExcludePattern := [
  {| Pattern := "Error return value of .((os\.)?std(out|err)\..*|.*Close|.*Flush|os\.Remove(All)?|.*printf?|os\.(Un)?Setenv). is not checked";
     Linter := "errcheck";
     Why := "Almost all programs ignore errors on these functions and in most cases it's ok" |};
  {| Pattern := "(comment on exported (method|function)|should have( a package)? comment|comment should be of the form)";
     Linter := "golint";
     Why := "Annoying issue about not having a comment. The rare codebase has such comments" |};
  {| Pattern := "func name will be used as test\.Test.* by other packages, and that stutters; consider calling this";
     Linter := "golint";
     Why := "False positive when tests are defined in package 'test'" |};
  {| Pattern := "Use of unsafe calls should be audited";
     Linter := "gas";
     Why := "Too many false-positives on 'unsafe' usage" |};
  {| Pattern := "Subprocess launch(ed with variable|ing should be audited)";
     Linter := "gas";
     Why := "Too many false-positives for parametrized shell calls" |};
  {| Pattern := "G104";
     Linter := "gas";
     Why := "Duplicated errcheck checks" |};
  {| Pattern := "(Expect directory permissions to be 0750 or less|Expect file permissions to be 0600 or less)";
     Linter := "gas";
     Why := "Too many issues in popular repos" |};
  {| Pattern := "Potential file inclusion via variable";
     Linter := "gas";
     Why := "False positive is triggered by 'src, err := ioutil.ReadFile(filename)'" |};
  {| Pattern := "(possible misuse of unsafe.Pointer|should have signature)";
     Linter := "govet";
     Why := "Common false positives" |};
  {| Pattern := "ineffective break statement. Did you mean to break out of the outer loop";
     Linter := "megacheck";
     Why := "Developers tend to write in C-style with an explicit 'break' in a 'switch', so it's ok to ignore" |}
].

Fixpoint GetDefaultExcludePatternsStrings_loop
    (ps : list ExcludePattern) (ret : list string) : list string :=
  match ps with
  | [] => ret
  | p :: rest => GetDefaultExcludePatternsStrings_loop rest (ret ++ [Pattern p])
  end.

Definition GetDefaultExcludePatternsStrings : list string :=
  GetDefaultExcludePatternsStrings_loop DefaultExcludePatterns [].

(** The fields of [Run] that the load stage and the linters read. *)
Record Run := {
  Args : list string;
  BuildTags : list string;
  AnalyzeTests : bool;
  SkipFiles : list string;
  SkipDirs : list string
}.

Record GovetSettings := { CheckShadowing : bool }.

Record LintersSettings := { Govet : GovetSettings }.

Record Config := {
  Run_ : Run;
  LintersSettings_ : LintersSettings
}.

End config.

(** ** Regular-expression syntax

    [regexp.Compile] belongs to Go's standard library. What follows is its
    parser ([regexp/syntax], Perl flags) on the fragment the patterns above
    are written in: literals, [.], [^], [$], an escaped punctuation
    character, capturing groups, alternation and the repetitions [*], [+],
    [?] with their non-greedy forms. Everything else (character classes,
    counted repetition, [(?...)] groups, escapes of letters and digits,
    bytes above 127) is refused, so a pattern this parser accepts is one the
    library accepts. *)

Module regexp.

Inductive Regexp : Type :=
  | Literal (c : ascii)
  | AnyCharNotNL
  | BeginText
  | EndText
  | Star (greedy : bool) (r : Regexp)
  | Plus (greedy : bool) (r : Regexp)
  | Quest (greedy : bool) (r : Regexp)
  | Capture (r : Regexp)
  | Concat (rs : list Regexp)
  | Alternate (rs : list Regexp).

(** One nesting level of the parser's stack: the alternatives closed by a
    [|] so far and the items of the alternative being read, both newest
    first. *)
Record frame := {
  alts : list Regexp;
  items : list Regexp
}.

Definition emptyFrame : frame := {| alts := []; items := [] |}.

Definition pushItem (r : Regexp) (f : frame) : frame :=
  {| alts := alts f; items := r :: items f |}.

(** [parseVerticalBar]: close the current alternative. *)
Definition verticalBar (f : frame) : frame :=
  {| alts := Concat (rev (items f)) :: alts f; items := [] |}.

(** The expression a frame stands for when it is closed. *)
Definition collapse (f : frame) : Regexp :=
  match alts f with
  | [] => Concat (rev (items f))
  | _ => Alternate (rev (Concat (rev (items f)) :: alts f))
  end.

(** [parser.repeat]: the operator applies to the item read last; there is
    none at the start of the pattern, after [(] and after [|]
    (missing argument to repetition operator). *)
Definition repeat (op : bool -> Regexp -> Regexp) (greedy : bool)
    (f : frame) : option frame :=
  match items f with
  | [] => None
  | r :: rest => Some {| alts := alts f; items := op greedy r :: rest |}
  end.

Definition isRepeatOp (c : ascii) : option (bool -> Regexp -> Regexp) :=
  if decide (c = "*"%char) then Some Star
  else if decide (c = "+"%char) then Some Plus
  else if decide (c = "?"%char) then Some Quest
  else None.

Definition isalnum (c : ascii) : bool :=
  let n := nat_of_ascii c in
  (Nat.leb 48 n && Nat.leb n 57) || (Nat.leb 65 n && Nat.leb n 90)
  || (Nat.leb 97 n && Nat.leb n 122).

Definition isASCII (c : ascii) : bool := Nat.ltb (nat_of_ascii c) 128.

(** The main loop of [syntax.Parse]. [stack] holds the frames of the
    groups that are open, [cur] the innermost one, and [lastRepeat] tells
    whether the token just read was a repetition operator (stacked
    operators such as [a**] are refused under the Perl flags). *)
Fixpoint parse (t : list ascii) (stack : list frame) (cur : frame)
    (lastRepeat : bool) : option Regexp :=
  match t with
  | [] =>
      match stack with
      | [] => Some (collapse cur)
      | _ :: _ => None (* missing closing ) *)
      end
  | c :: t' =>
      if decide (c = "("%char) then
        match t' with
        | c' :: _ =>
            if decide (c' = "?"%char) then None (* (?flags), (?:re), (?P<name>re) *)
            else parse t' (cur :: stack) emptyFrame false
        | [] => parse t' (cur :: stack) emptyFrame false
        end
      else if decide (c = "|"%char) then
        parse t' stack (verticalBar cur) false
      else if decide (c = ")"%char) then
        match stack with
        | [] => None (* unexpected ) *)
        | up :: stack' =>
            parse t' stack' (pushItem (Capture (collapse cur)) up) false
        end
      else match isRepeatOp c with
      | Some op =>
          if lastRepeat then None (* invalid nested repetition operator *)
          else
            match t' with
            | c' :: t'' =>
                if decide (c' = "?"%char) then
                  match repeat op false cur with
                  | Some cur' => parse t'' stack cur' true
                  | None => None
                  end
                else
                  match repeat op true cur with
                  | Some cur' => parse t' stack cur' true
                  | None => None
                  end
            | [] =>
                match repeat op true cur with
                | Some cur' => parse t' stack cur' true
                | None => None
                end
            end
      | None =>
          if decide (c = "."%char) then parse t' stack (pushItem AnyCharNotNL cur) false
          else if decide (c = "^"%char) then parse t' stack (pushItem BeginText cur) false
          else if decide (c = "$"%char) then parse t' stack (pushItem EndText cur) false
          else if decide (c = "["%char) then None (* character class *)
          else if decide (c = "{"%char) then None (* counted repetition *)
          else if decide (c = "\"%char) then
            match t' with
            | [] => None (* trailing backslash at end of expression *)
            | e :: t'' =>
                if isASCII e && negb (isalnum e)
                then parse t'' stack (pushItem (Literal e) cur) false
                else None (* \d, \pN, \Q, \123, ... *)
            end
          else if isASCII c then parse t' stack (pushItem (Literal c) cur) false
          else None (* multi-byte UTF-8 *)
      end
  end.

(** [regexp.Compile]: [Some] of the parsed expression, or [None] for a
    pattern-compilation error. *)
Definition Compile (expr : string) : option Regexp :=
  parse (list_ascii_of_string expr) [] emptyFrame false.

End regexp.

(** ** Types of the packages the load stage works on *)

(** [go/token.Position]. *)
Module token.
Record Position := {
  Filename : string;
  Offset : Z;
  Line : Z;
  Column : Z
}.
End token.

(** [go/build.Context], with the fields that matter here. *)
Module build.
Record Context := {
  GOROOT : string;
  BuildTags : list string
}.

Definition set_GOROOT (v : string) (c : Context) : Context :=
  {| GOROOT := v; BuildTags := BuildTags c |}.
End build.

(** [golang.org/x/tools/go/loader]. A [*PackageInfo] is identified with the
    package it describes; [Errors] are the compile errors found in it. A nil
    slice or map is [None]. *)
Module loader.
Record PackageInfo := {
  Pkg : string;
  Importable : bool;
  Errors : list error
}.

Record Program := {
  Created : option (list PackageInfo);
  Imported : option (gmap string PackageInfo)
}.

Record Config := {
  Build : build.Context;
  AllowErrors : bool;
  ParserMode : N;
  CreatePkgs : list (list string);
  ImportPkgs : gmap string bool
}.
End loader.

(** Modelled from the spec: package [packages] (the Target Resolver), whose
    source lies outside the verified files. Its [Program] is the spec's
    AnalysisTarget, an ordered set of directories or files plus a build
    context; the load stage and the linters only call its accessors, which
    are the fields here. *)
Module packages.
Module Package.
Record t := { Files : bool -> list string }.
End Package.

Module Program.
Record t := {
  BuildContext : build.Context;
  Dirs : list string;
  Files : bool -> list string;
  Packages : list Package.t
}.
End Program.
End packages.

(** [github.com/golangci/govet]'s [Issue] and golangci-lint's
    [result.Issue]. *)
Module govetAPI.
Record Issue := {
  Pos : token.Position;
  Message : string
}.
End govetAPI.

Module result_.
Record Issue := {
  Pos : token.Position;
  Text : string;
  FromLinter : string
}.
End result_.

(** ** The process state and the world outside

    [World] is what the load stage reads and writes of its process: the
    environment variables ([os.Getenv], [os.Setenv]) and the global
    [build.Default]. *)
Record World := {
  environ : gmap string string;
  build_Default : build.Context
}.

(** The functions the code calls in the operating system, the go toolchain
    and in packages outside the verified files, together with the types and
    constants those packages keep to themselves. A function that reads the
    process state or the file system takes the [World]; a function that can
    return an error returns a [result]. *)
Class Extern := {
  (** [*packages.Resolver], [*ssa.Program], [*astcache.Cache] *)
  Resolver : Type;
  ssa_Program : Type;
  astcache_Cache : Type;
  (** the mode bits [parser.ParseComments] and [ssa.GlobalDebug] *)
  parser_ParseComments : N;
  ssa_GlobalDebug : N;
  (** [os.Getwd()] *)
  os_Getwd : World -> result string;
  (** [filepath.IsAbs(p)] and [filepath.Rel(root, p)], both lexical *)
  filepath_IsAbs : string -> bool;
  filepath_Rel : string -> string -> result string;
  (** [exec.Command(name, args...).Output()] *)
  exec_Output : World -> string -> list string -> result string;
  (** [strings.TrimSpace] *)
  strings_TrimSpace : string -> string;
  (** [packages.StdExcludeDirRegexps], [packages.NewResolver] and
      [Resolver.Resolve] *)
  packages_StdExcludeDirRegexps : list string;
  packages_NewResolver : World -> list string -> list string -> result Resolver;
  Resolver_Resolve : World -> Resolver -> list string -> result packages.Program.t;
  (** [loader.Config.FromArgs], which records the arguments in the
      configuration it is called on, and [loader.Config.Load] *)
  loader_FromArgs :
    World -> loader.Config -> list string -> bool ->
    result (list string) * loader.Config;
  loader_Load : World -> loader.Config -> result loader.Program;
  (** [ssautil.CreateProgram] and [ssa.Program.Build] *)
  ssautil_CreateProgram : loader.Program -> N -> ssa_Program;
  ssa_Build : ssa_Program -> ssa_Program;
  (** [astcache.LoadFromProgram] and [astcache.LoadFromFiles] *)
  astcache_LoadFromProgram : World -> loader.Program -> result astcache_Cache;
  astcache_LoadFromFiles : World -> list string -> result astcache_Cache;
  (** the order in which a [for k, v := range m] visits the keys of [m]:
      Go leaves it unspecified *)
  rangeOrder : gmap string loader.PackageInfo -> list string;
  (** [govetAPI.Run(files, checkShadowing)] *)
  govetAPI_Run : list string -> bool -> result (list govetAPI.Issue)
}.

(** Package [linter] of golangci-lint. *)
Module linter.

(** Modelled from the spec: [linter.Config], declared in package [linter],
    whose source lies outside the verified files. It is the spec's
    AnalyzerDescriptor, whose capability flags are [needsFullLoad] and
    [needsDataflowRepr]; the two methods the load stage calls return
    them. *)
Record Config := {
  Name : string;
  NeedsProgramLoading : bool;
  NeedsSSARepresentation : bool
}.

(** [linter.Context], as [LoadContext] fills it in; nil pointers are
    [None]. *)
Record Context `{Extern} := {
  PkgProgram : packages.Program.t;
  Cfg : config.Config;
  Program : option loader.Program;
  SSAProgram : option ssa_Program;
  LoaderConfig : option loader.Config;
  ASTCache : astcache_Cache;
  NotCompilingPackages : list loader.PackageInfo
}.

(** [Context.Settings()]. *)
Definition Settings `{Extern} (c : Context) : config.LintersSettings :=
  config.LintersSettings_ (Cfg c).

End linter.

Section Effects.
Context `{Extern}.

(** One entry of the trace: a call that leaves the process, with its
    arguments and what it returned, or a write to the process state. *)
Inductive Event : Type :=
  | EvExec (name : string) (args : list string) (r : result string)
  | EvSetenv (key value : string)
  | EvSetBuildDefaultGOROOT (value : string)
  | EvNewResolver (tags skipDirs : list string) (r : result Resolver)
  | EvResolve (args : list string) (r : result packages.Program.t)
  | EvFromArgs (args : list string) (tests : bool) (r : result (list string))
  | EvLoad (conf : loader.Config) (r : result loader.Program)
  | EvCreateSSA (prog : loader.Program) (mode : N)
  | EvBuildSSA
  | EvLoadFromProgram (prog : loader.Program) (r : result astcache_Cache)
  | EvLoadFromFiles (files : list string) (r : result astcache_Cache)
  | EvLogInfo (format : string).

(** How a function ends: it returns a value, it returns a non-nil error
    (and the zero value), or it panics. *)
Inductive outcome (A : Type) : Type :=
  | Return (a : A)
  | Fail (e : error)
  | Panic (msg : string).

(** A computation: from the process state to how it ends, the process
    state it leaves and the events it adds to the trace. *)
Definition M (A : Type) : Type := World -> outcome A * World * list Event.

Definition ret {A} (a : A) : M A := fun w => (Return A a, w, []).

Definition bind {A B} (m : M A) (k : A -> M B) : M B := fun w =>
  match m w with
  | (Return _ a, w1, t1) =>
      match k a w1 with
      | (o, w2, t2) => (o, w2, t1 ++ t2)
      end
  | (Fail _ e, w1, t1) => (Fail B e, w1, t1)
  | (Panic _ msg, w1, t1) => (Panic B msg, w1, t1)
  end.

(** [return nil, err]. *)
Definition fail {A} (e : error) : M A := fun w => (Fail A e, w, []).

Definition panic {A} (msg : string) : M A := fun w => (Panic A msg, w, []).

Definition emit (e : Event) : M unit := fun w => (Return unit tt, w, [e]).

(** The caller's [if err != nil] on a returned [(v, err)]: it returns
    [wrap err], or goes on with [v]. *)
Definition check {A} (wrap : error -> error) (r : result A) : M A :=
  match r with
  | Ok a => ret a
  | Err e => fail (wrap e)
  end.

(** A call of a function of this code that returns [(v, err)], with the
    caller's [if err != nil] that returns [wrap err]. *)
Definition orFail {A} (wrap : error -> error) (m : M A) : M A := fun w =>
  match m w with
  | (Fail _ e, w1, t1) => (Fail A (wrap e), w1, t1)
  | o => o
  end.

(** A call that reads the world and leaves no event. *)
Definition ask {A} (f : World -> A) : M A := fun w => (Return A (f w), w, []).

(** A call that leaves the process: its result is logged. *)
Definition call {A} (ev : A -> Event) (f : World -> A) : M A := fun w =>
  (Return A (f w), w, [ev (f w)]).

(** [defer d()]: [d] runs when the body ends, however it ends, and the
    body's outcome stands. *)
Definition defer {A} (d : M unit) (body : M A) : M A := fun w =>
  match body w with
  | (o, w1, t1) =>
      match d w1 with
      | (_, w2, t2) => (o, w2, t1 ++ t2)
      end
  end.

End Effects.

Arguments Return {A} a.
Arguments Fail {A} e.
Arguments Panic {A} msg.

Notation "x <- m ;; k" := (bind m (fun x => k))
  (at level 100, m at next level, right associativity,
   format "'[v' x  <-  m  ;; '/' k ']'").
Notation "m ;;; k" := (bind m (fun _ => k))
  (at level 100, right associativity,
   format "'[v' m  ;;; '/' k ']'").

(** ** Package lint (pkg/lint/load.go) *)

Section Lint.
Context `{Extern}.

(** [os.Getenv]: the value of the variable, empty when it is not set. *)
Definition os_Getenv (key : string) (w : World) : string :=
  default "" (environ w !! key).

(** [os.Setenv]. The caller drops the error it may return; the
    environment of the model takes every key and value. *)
Definition os_Setenv (key value : string) : M unit := fun w =>
  (Return tt,
   {| environ := <[key := value]> (environ w);
      build_Default := build_Default w |},
   [EvSetenv key value]).

(** The assignment [build.Default.GOROOT = goroot]. *)
Definition set_build_Default_GOROOT (value : string) : M unit := fun w =>
  (Return tt,
   {| environ := environ w;
      build_Default := build.set_GOROOT value (build_Default w) |},
   [EvSetBuildDefaultGOROOT value]).

Fixpoint isFullImportNeeded (linters : list linter.Config) : bool :=
  match linters with
  | [] => false
  | linter :: rest =>
      if linter.NeedsProgramLoading linter then true
      else isFullImportNeeded rest
  end.

Fixpoint isSSAReprNeeded (linters : list linter.Config) : bool :=
  match linters with
  | [] => false
  | linter :: rest =>
      if linter.NeedsSSARepresentation linter then true
      else isSSAReprNeeded rest
  end.

(** The loop of [normalizePaths]; [ret] is the slice built so far. *)
Fixpoint normalizePaths_loop (root : string) (paths ret : list string)
    : result (list string) :=
  match paths with
  | [] => Ok ret
  | p :: rest =>
      if filepath_IsAbs p then
        match filepath_Rel root p with
        | Err err =>
            Err ("can't get relative path for path " +:+ p +:+ " and root "
                 +:+ root +:+ ": " +:+ err)
        | Ok relPath => normalizePaths_loop root rest (ret ++ ["./" +:+ relPath])
        end
      else normalizePaths_loop root rest (ret ++ ["./" +:+ p])
  end.

Definition normalizePaths (paths : list string) : M (list string) :=
  r <- ask os_Getwd ;;
  root <- check (fun err => "can't get working dir: " +:+ err) r ;;
  check (fun err => err) (normalizePaths_loop root paths []).

(** The three results [(prog, loadcfg, err)] are a pair of optional
    pointers, or the error. The duration in the log line is left out. *)
Definition loadWholeAppIfNeeded (linters : list linter.Config)
    (cfg : config.Run) (pkgProg : packages.Program.t)
    : M (option loader.Program * option loader.Config) :=
  if negb (isFullImportNeeded linters) then ret (None, None)
  else
    defer (emit (EvLogInfo "Program loading took %s"))
      (let bctx := packages.Program.BuildContext pkgProg in
       let loadcfg :=
         {| loader.Build := bctx;
            loader.AllowErrors := true;
            loader.ParserMode := parser_ParseComments;
            loader.CreatePkgs := [];
            loader.ImportPkgs := ∅ |} in
       let dirs := packages.Program.Dirs pkgProg in
       let loaderArgs :=
         if negb (len dirs =? 0)%nat then dirs
         else packages.Program.Files pkgProg (config.AnalyzeTests cfg) in
       nLoaderArgs <- normalizePaths loaderArgs ;;
       r <- call (fun r => EvFromArgs nLoaderArgs (config.AnalyzeTests cfg) r.1)
              (fun w => loader_FromArgs w loadcfg nLoaderArgs (config.AnalyzeTests cfg)) ;;
       let loadcfg := r.2 in
       rest <- check (fun err => "can't parepare load config with paths: " +:+ err) r.1 ;;
       if (0 <? len rest)%nat then
         fail ("unhandled loading paths: " +:+ fmt_v rest)
       else
         r <- call (EvLoad loadcfg) (fun w => loader_Load w loadcfg) ;;
         prog <- check (fun err => "can't load program from paths "
                          +:+ fmt_v loaderArgs +:+ ": " +:+ err) r ;;
         ret (Some prog, Some loadcfg)).

Definition buildSSAProgram (lprog : loader.Program) : M ssa_Program :=
  defer (emit (EvLogInfo "SSA repr building took %s"))
    (emit (EvCreateSSA lprog ssa_GlobalDebug) ;;;
     let ssaProg := ssautil_CreateProgram lprog ssa_GlobalDebug in
     emit EvBuildSSA ;;;
     ret (ssa_Build ssaProg)).

Definition discoverGoRoot : M string :=
  goroot <- ask (os_Getenv "GOROOT") ;;
  if negb (String.eqb goroot "") then ret goroot
  else
    r <- call (EvExec "go" ["env"; "GOROOT"])
           (fun w => exec_Output w "go" ["env"; "GOROOT"]) ;;
    output <- check (fun err => "can't execute go env GOROOT: " +:+ err) r ;;
    ret (strings_TrimSpace output).

(** The loop over [prog.Created]. *)
Fixpoint separateCreated (created notCompiling compilingCreated : list loader.PackageInfo)
    : list loader.PackageInfo * list loader.PackageInfo :=
  match created with
  | [] => (notCompiling, compilingCreated)
  | info :: rest =>
      if negb (len (loader.Errors info) =? 0)%nat
      then separateCreated rest (notCompiling ++ [info]) compilingCreated
      else separateCreated rest notCompiling (compilingCreated ++ [info])
  end.

(** The loop over [prog.Imported], visiting the keys in [order]. An entry
    is produced when it is still in the map as its key comes up. *)
Fixpoint separateImported (order : list string)
    (imported : gmap string loader.PackageInfo)
    (notCompiling : list loader.PackageInfo)
    : gmap string loader.PackageInfo * list loader.PackageInfo :=
  match order with
  | [] => (imported, notCompiling)
  | k :: rest =>
      match imported !! k with
      | Some info =>
          if negb (len (loader.Errors info) =? 0)%nat
          then separateImported rest (delete k imported) (notCompiling ++ [info])
          else separateImported rest imported notCompiling
      | None => separateImported rest imported notCompiling
      end
  end.

(** The function updates [lintCtx] and the program it points to in place;
    here it returns the updated context, or [None] for the nil
    dereference of [prog.Created] when [lintCtx.Program] is nil. *)
Definition separateNotCompilingPackages (lintCtx : linter.Context)
    : option linter.Context :=
  match linter.Program lintCtx with
  | None => None
  | Some prog =>
      let '(notCompiling, created) :=
        match loader.Created prog with
        | Some created =>
            let '(notCompiling, compilingCreated) :=
              separateCreated created (linter.NotCompilingPackages lintCtx) [] in
            (notCompiling, Some compilingCreated)
        | None => (linter.NotCompilingPackages lintCtx, None)
        end in
      let '(imported, notCompiling) :=
        match loader.Imported prog with
        | Some imported =>
            let '(imported, notCompiling) :=
              separateImported (rangeOrder imported) imported notCompiling in
            (Some imported, notCompiling)
        | None => (None, notCompiling)
        end in
      Some {| linter.PkgProgram := linter.PkgProgram lintCtx;
              linter.Cfg := linter.Cfg lintCtx;
              linter.Program :=
                Some {| loader.Created := created; loader.Imported := imported |};
              linter.SSAProgram := linter.SSAProgram lintCtx;
              linter.LoaderConfig := linter.LoaderConfig lintCtx;
              linter.ASTCache := linter.ASTCache lintCtx;
              linter.NotCompilingPackages := notCompiling |}
  end.

Definition LoadContext (linters : list linter.Config) (cfg : config.Config)
    : M linter.Context :=
  goroot <- orFail (fun err => "can't discover GOROOT: " +:+ err) discoverGoRoot ;;
  os_Setenv "GOROOT" goroot ;;;
  set_build_Default_GOROOT goroot ;;;
  let args := config.Args (config.Run_ cfg) in
  let args := if (len args =? 0)%nat then ["./..."] else args in
  let skipDirs := [] ++ packages_StdExcludeDirRegexps in
  let skipDirs := skipDirs ++ config.SkipDirs (config.Run_ cfg) in
  r <- call (EvNewResolver (config.BuildTags (config.Run_ cfg)) skipDirs)
         (fun w => packages_NewResolver w (config.BuildTags (config.Run_ cfg)) skipDirs) ;;
  r <- check (fun err => err) r ;;
  pr <- call (EvResolve args) (fun w => Resolver_Resolve w r args) ;;
  pkgProg <- check (fun err => err) pr ;;
  pl <- loadWholeAppIfNeeded linters (config.Run_ cfg) pkgProg ;;
  let prog := pl.1 in
  let loaderConfig := pl.2 in
  ssaProg <- match prog with
             | Some p =>
                 if isSSAReprNeeded linters
                 then (s <- buildSSAProgram p ;; ret (Some s))
                 else ret None
             | None => ret None
             end ;;
  ac <- match prog with
        | Some p =>
            call (EvLoadFromProgram p) (fun w => astcache_LoadFromProgram w p)
        | None =>
            let files := packages.Program.Files pkgProg
                           (config.AnalyzeTests (config.Run_ cfg)) in
            call (EvLoadFromFiles files) (fun w => astcache_LoadFromFiles w files)
        end ;;
  astCache <- check (fun err => err) ac ;;
  let ret_ :=
    {| linter.PkgProgram := pkgProg;
       linter.Cfg := cfg;
       linter.Program := prog;
       linter.SSAProgram := ssaProg;
       linter.LoaderConfig := loaderConfig;
       linter.ASTCache := astCache;
       linter.NotCompilingPackages := [] |} in
  match prog with
  | Some _ =>
      match separateNotCompilingPackages ret_ with
      | Some ret_ => ret ret_
      | None => panic "invalid memory address or nil pointer dereference"
      end
  | None => ret ret_
  end.

End Lint.

(** ** The govet linter (src/unnamed/part_001) *)

Module Govet.
Section Govet.
Context `{Extern}.

Definition Name : string := "govet".

Definition Desc : string :=
"Vet examines Go source code and reports suspicious constructs, such as Printf calls whose arguments do not align with the format string".

(** The loop over the packages; [govetIssues] is the slice appended to so
far. It stops at the first package whose analysis returns an error. *)
Fixpoint Run_loop (pkgs : list packages.Package.t) (analyzeTests checkShadowing : bool)
(govetIssues : list govetAPI.Issue) : result (list govetAPI.Issue) :=
match pkgs with
| [] => Ok govetIssues
| pkg :: rest =>
  match govetAPI_Run (packages.Package.Files pkg analyzeTests) checkShadowing with
  | Err err => Err err
  | Ok issues => Run_loop rest analyzeTests checkShadowing (govetIssues ++ issues)
  end
end.

(** The second loop: one [result.Issue] per govet issue. *)
Fixpoint Run_convert (govetIssues : list govetAPI.Issue) (res : list result_.Issue)
: list result_.Issue :=
match govetIssues with
| [] => res
| i :: rest =>
  Run_convert rest
    (res ++ [{| result_.Pos := govetAPI.Pos i;
                result_.Text := govetAPI.Message i;
                result_.FromLinter := Name |}])
end.

(** [Run] returns the Go pair [(issues, err)]; a nil slice and a nil error
are [None]. *)
Definition Run (lintCtx : linter.Context)
: option (list result_.Issue) * option error :=
match Run_loop (packages.Program.Packages (linter.PkgProgram lintCtx))
      (config.AnalyzeTests (config.Run_ (linter.Cfg lintCtx)))
      (config.CheckShadowing (config.Govet (linter.Settings lintCtx))) [] with
| Err err => (None, Some err)
| Ok govetIssues =>
  if (len govetIssues =? 0)%nat then (None, None)
  else (Some (Run_convert govetIssues []), None)
end.

End Govet.
End Govet.

(** ** The image tagging tool (main.go, src/unnamed/part_001)

    The file holds two versions of the tool's [main.go]: [aquatic], which
    prints the git metadata of the working tree, and [aquarium], which tags
    docker images with it. [runGit], [getCommit], [getBranch] and the types
    of the git metadata are the same text in both and are embedded once. *)

Module semver.
(** [semver.Version], with the fields read here. *)
Record Version := {
  Major : N;
  Minor : N;
  Patch : N
}.
End semver.

Record GitBranch := { Name : string }.

Record GitCommit := {
  ShortHash : string;
  LongHash : string
}.

Module GitTag.
Record t := {
  Major : string;
  Minor : string;
  Patch : string;
  Raw : string;
  SemVer : bool
}.
End GitTag.

Record AquariumTemplate := {
  Tag : GitTag.t;
  Commit : GitCommit;
  Branch : GitBranch
}.

Record AquariumConfig := {
  TagFormat : list string;
  LabelFormat : list string;
  ImageNames : list string
}.

(** The flags [init] parses into global variables. *)
Record Flags := {
  imgID : string;
  outputFormat : string
}.

(** What the tool calls outside: the [exec], [strings], [semver],
    [ioutil], [yaml], [template], docker client and [json] packages. *)
Class Tools := {
  (** [*template.Template] and [*client.Client] *)
  Template : Type;
  DockerClient : Type;
  (** [cmd.Run()] of [exec.Command(name, args...)] with [Stdout] and
      [Stderr] set to buffers: the error it returns and what the two
      buffers hold afterwards *)
  exec_Run : string -> list string -> option error * string * string;
  (** [strings.TrimSpace] *)
  tools_TrimSpace : string -> string;
  (** [semver.Make] *)
  semver_Make : string -> result semver.Version;
  (** [ioutil.ReadFile] *)
  ioutil_ReadFile : string -> result string;
  (** [yaml.Unmarshal] into an empty [AquariumConfig] *)
  yaml_Unmarshal : string -> result AquariumConfig;
  (** [client.NewEnvClient()] *)
  client_NewEnvClient : result DockerClient;
  (** [template.New("tag_template").Parse(text)] *)
  template_Parse : string -> result Template;
  (** what [t.Execute(buf, data)] leaves in [buf]; its error is dropped by
      the caller *)
  template_Execute : Template -> AquariumTemplate -> string;
  (** [docker.ImageTag(ctx, imgID, imgName)] *)
  docker_ImageTag : DockerClient -> string -> string -> option error;
  (** [json.Marshal] of the struct with the one field [images]; a nil
      slice is [None] *)
  json_Marshal : option (list string) -> result string
}.

(** What the tool does outside, in the order it does it. *)
Inductive ToolEvent : Type :=
  | EvRun (name : string) (args : list string)
  | EvReadFile (filename : string)
  | EvImageTag (imgID imgName : string) (r : option error)
  | EvPrintf (text : string).

(** A computation of the tool: how it ends and what it did. *)
Definition T (A : Type) : Type := outcome A * list ToolEvent.

Definition retT {A} (a : A) : T A := (Return a, []).

Definition bindT {A B} (m : T A) (k : A -> T B) : T B :=
  match m with
  | (Return a, t1) =>
      match k a with
      | (o, t2) => (o, t1 ++ t2)
      end
  | (Fail e, t1) => (Fail e, t1)
  | (Panic msg, t1) => (Panic msg, t1)
  end.

Notation "x <~ m ;; k" := (bindT m (fun x => k))
  (at level 100, m at next level, right associativity,
   format "'[v' x  <~  m  ;; '/' k ']'").

(** [if err != nil { panic(err) }] after a call of a function of the
    tool. *)
Definition orPanic {A} (m : T A) : T A :=
  match m with
  | (Fail e, t) => (Panic e, t)
  | o => o
  end.

(** The same after a call outside that leaves no event. *)
Definition mustT {A} (r : result A) : T A :=
  match r with
  | Ok a => retT a
  | Err e => (Panic e, [])
  end.

(** [fmt.Printf] of a text that is already formatted. *)
Definition printf (text : string) : T unit := (Return tt, [EvPrintf text]).

(** The line feed. *)
Definition nl : string := String "010"%char "".

(** [s[1:]] for a string that is not empty. *)
Definition tail1 (s : string) : string :=
  match s with
  | String _ rest => rest
  | EmptyString => EmptyString
  end.

(** [append] to a slice that may be nil. *)
Definition go_append {A} (s : option (list A)) (x : A) : option (list A) :=
  Some (default [] s ++ [x]).

Section Git.
Context `{Tools}.

Definition runGit (args : list string) : T string :=
  match exec_Run "git" args with
  | (Some _, _, stderr) => (Fail stderr, [EvRun "git" args])
  | (None, stdout, _) => (Return stdout, [EvRun "git" args])
  end.

Definition getCommit : T GitCommit :=
  longHash <~ runGit ["rev-parse"; "HEAD"] ;;
  shortHash <~ runGit ["rev-parse"; "--short"; "HEAD"] ;;
  retT {| LongHash := tools_TrimSpace longHash;
          ShortHash := tools_TrimSpace shortHash |}.

Definition getBranch : T GitBranch :=
  name <~ runGit ["rev-parse"; "--abbrev-ref"; "HEAD"] ;;
  retT {| Name := tools_TrimSpace name |}.

End Git.

(** The first version (lines 45-216). *)
Module aquatic.
Section Aquatic.
Context `{Tools}.

Definition getTag : T GitTag.t :=
  raw <~ runGit ["describe"; "--tags"; "--abbrev=0"] ;;
  let tag := tools_TrimSpace raw in
  let tag := if String.prefix "v" tag then tail1 tag else tag in
  match semver_Make tag with
  | Err _ =>
      retT {| GitTag.Major := ""; GitTag.Minor := ""; GitTag.Patch := "";
              GitTag.Raw := tag; GitTag.SemVer := true |}
  | Ok v =>
      retT {| GitTag.Major := pretty (semver.Major v);
              GitTag.Minor := pretty (semver.Minor v);
              GitTag.Patch := pretty (semver.Patch v);
              GitTag.Raw := tag; GitTag.SemVer := true |}
  end.

Definition main : T unit :=
  tag <~ orPanic getTag ;;
  commit <~ orPanic getCommit ;;
  branch <~ orPanic getBranch ;;
  _ <~ printf ("Tag: " +:+ GitTag.Major tag +:+ "." +:+ GitTag.Minor tag
               +:+ "." +:+ GitTag.Patch tag +:+ nl) ;;
  _ <~ printf ("Branch: " +:+ Name branch +:+ nl) ;;
  printf ("Commit: long:" +:+ LongHash commit +:+ "|short:"
          +:+ ShortHash commit +:+ nl).

End Aquatic.
End aquatic.

(** The later version (lines 217-483). *)
Module aquarium.
Section Aquarium.
Context `{Tools}.

(** The loop of [printImgs] in the text format. *)
Fixpoint printImgs_text (taggedImgs : list string) : T unit :=
  match taggedImgs with
  | [] => retT tt
  | img :: rest => _ <~ printf (img +:+ nl) ;; printImgs_text rest
  end.

Definition printImgs (flags : Flags) (taggedImgs : option (list string)) : T unit :=
  if String.eqb (outputFormat flags) "text" then
    printImgs_text (default [] taggedImgs)
  else if String.eqb (outputFormat flags) "json" then
    json <~ mustT (json_Marshal taggedImgs) ;;
    printf json
  else retT tt.

(** The loop of [setTag]; [images] is the named result, nil at first. *)
Fixpoint setTag_loop (flags : Flags) (name : string) (tmplData : AquariumTemplate)
    (tagFormats : list string) (docker : DockerClient)
    (images : option (list string)) : T (option (list string)) :=
  match tagFormats with
  | [] => retT images
  | tagTemplate :: rest =>
      t <~ mustT (template_Parse tagTemplate) ;;
      let buf := template_Execute t tmplData in
      let imgName := name +:+ ":" +:+ buf in
      let err := docker_ImageTag docker (imgID flags) imgName in
      match err with
      | Some err => (Fail err, [EvImageTag (imgID flags) imgName (Some err)])
      | None =>
          bindT (Return tt, [EvImageTag (imgID flags) imgName None])
            (fun _ => setTag_loop flags name tmplData rest docker
                        (go_append images imgName))
      end
  end.

Definition setTag (flags : Flags) (name : string) (tmplData : AquariumTemplate)
    (tagFormats : list string) (docker : DockerClient)
    : T (option (list string)) :=
  setTag_loop flags name tmplData tagFormats docker None.

Definition getTag : T GitTag.t :=
  raw <~ runGit ["describe"; "--tags"; "--abbrev=0"] ;;
  let tag := tools_TrimSpace raw in
  let tag := if String.prefix "v" tag then tail1 tag else tag in
  match semver_Make tag with
  | Err _ =>
      retT {| GitTag.Major := ""; GitTag.Minor := ""; GitTag.Patch := "";
              GitTag.Raw := tag; GitTag.SemVer := false |}
  | Ok v =>
      retT {| GitTag.Major := pretty (semver.Major v);
              GitTag.Minor := pretty (semver.Minor v);
              GitTag.Patch := pretty (semver.Patch v);
              GitTag.Raw := tag; GitTag.SemVer := true |}
  end.

Definition getGitInfo : T AquariumTemplate :=
  tag <~ getTag ;;
  commit <~ getCommit ;;
  branch <~ getBranch ;;
  retT {| Tag := tag; Branch := branch; Commit := commit |}.

(** The loop of [main] over the image names; [taggedImgs] is assigned
    afresh in every round. *)
Fixpoint main_loop (flags : Flags) (tmplData : AquariumTemplate)
    (tagFormats : list string) (docker : DockerClient)
    (imageNames : list string) (taggedImgs : option (list string))
    : T (option (list string)) :=
  match imageNames with
  | [] => retT taggedImgs
  | name :: rest =>
      taggedImgs <~ orPanic (setTag flags name tmplData tagFormats docker) ;;
      main_loop flags tmplData tagFormats docker rest taggedImgs
  end.

Definition main (flags : Flags) : T unit :=
  data <~ bindT (Return tt, [EvReadFile ".aquarium.yml"])
            (fun _ => mustT (ioutil_ReadFile ".aquarium.yml")) ;;
  config <~ mustT (yaml_Unmarshal data) ;;
  tmplData <~ orPanic getGitInfo ;;
  docker <~ mustT client_NewEnvClient ;;
  taggedImgs <~ main_loop flags tmplData (TagFormat config) docker
                  (ImageNames config) None ;;
  printImgs flags taggedImgs.

End Aquarium.
End aquarium.

(** ** Vocabulary of the statements *)

(** The packages of a loaded program: those of [Created], a nil slice
    holding none, and the entries of [Imported], a nil map holding none. *)
Definition createdOf (prog : loader.Program) : list loader.PackageInfo :=
  default [] (loader.Created prog).

Definition importedOf (prog : loader.Program) : gmap string loader.PackageInfo :=
  default ∅ (loader.Imported prog).

Definition importedList (prog : loader.Program) : list loader.PackageInfo :=
  (map_to_list (importedOf prog)).*2.

Definition inImported (prog : loader.Program) (info : loader.PackageInfo) : Prop :=
  exists k, importedOf prog !! k = Some info.

Definition loaded (prog : loader.Program) (info : loader.PackageInfo) : Prop :=
  info ∈ createdOf prog \/ inImported prog info.

(** The package carries no compile error. *)
Definition compiles (info : loader.PackageInfo) : Prop :=
  loader.Errors info = [].

#[global] Instance compiles_dec (info : loader.PackageInfo) : Decision (compiles info) :=
  decide (loader.Errors info = []).

(** A [range] over a map comes by every key of the map. *)
Definition rangeVisitsAll `{Extern} (m : gmap string loader.PackageInfo) : Prop :=
  forall k, is_Some (m !! k) -> k ∈ rangeOrder m.

Definition exactlyOne (A B C : Prop) : Prop :=
  (A /\ ~ B /\ ~ C) \/ (~ A /\ B /\ ~ C) \/ (~ A /\ ~ B /\ C).

(** What [normalizePaths] makes of the path [p] under the working directory
    [root]: when [p] is absolute, the path [filepath.Rel] gives for it, and
    [p] itself otherwise, with [./] put in front. *)
Definition normalized `{Extern} (root p out : string) : Prop :=
  if filepath_IsAbs p
  then exists relPath, filepath_Rel root p = Ok relPath /\ out = "./" +:+ relPath
  else out = "./" +:+ p.

(** The events of the Program Loader, of the resolver, and of the two
    ways to fill the parse cache. *)
Definition isLoaderEvent `{Extern} (e : Event) : Prop :=
  match e with
  | EvFromArgs _ _ _ | EvLoad _ _ => True
  | _ => False
  end.


Definition isSSAEvent `{Extern} (e : Event) : Prop :=
  match e with
  | EvCreateSSA _ _ | EvBuildSSA => True
  | _ => False
  end.

(** A program was loaded: [loader.Config.Load] returned it. *)
Definition programLoaded `{Extern} (tr : list Event) (prog : loader.Program) : Prop :=
  exists conf, EvLoad conf (Ok prog) ∈ tr.

(** The process state once [GOROOT] is established as [goroot], in the
    environment and in [build.Default]. *)
Definition withGOROOT (goroot : string) (w : World) : World :=
  {| environ := <["GOROOT" := goroot]> (environ w);
     build_Default := build.set_GOROOT goroot (build_Default w) |}.

Definition isCacheEvent `{Extern} (e : Event) : Prop :=
  match e with
  | EvLoadFromProgram _ _ | EvLoadFromFiles _ _ => True
  | _ => False
  end.

(** The arguments [LoadContext] resolves and the directories it skips. *)
Definition resolveArgs (cfg : config.Config) : list string :=
  if (len (config.Args (config.Run_ cfg)) =? 0)%nat then ["./..."]
  else config.Args (config.Run_ cfg).

Definition resolveSkipDirs `{Extern} (cfg : config.Config) : list string :=
  packages_StdExcludeDirRegexps ++ config.SkipDirs (config.Run_ cfg).

(** What the SSA stage of [LoadContext] does with a loaded program. *)
Definition ssaTrace `{Extern} (linters : list linter.Config) (p : loader.Program)
    : list Event :=
  if isSSAReprNeeded linters
  then [EvCreateSSA p ssa_GlobalDebug; EvBuildSSA;
        EvLogInfo "SSA repr building took %s"]
  else [].

Definition ssaOf `{Extern} (linters : list linter.Config) (p : loader.Program)
    : option ssa_Program :=
  if isSSAReprNeeded linters
  then Some (ssa_Build (ssautil_CreateProgram p ssa_GlobalDebug))
  else None.

(** The runs of [LoadContext], path by path: how it ends, the process state
    it leaves and its trace, from what each stage returned. *)
Inductive LoadContextRun `{Extern} (linters : list linter.Config)
    (cfg : config.Config) (w : World)
    : outcome linter.Context -> World -> list Event -> Prop :=
  | run_no_goroot e t0 :
      discoverGoRoot w = (Fail e, w, t0) ->
      LoadContextRun linters cfg w (Fail ("can't discover GOROOT: " +:+ e)) w t0
  | run_no_resolver goroot t0 e :
      discoverGoRoot w = (Return goroot, w, t0) ->
      packages_NewResolver (withGOROOT goroot w)
        (config.BuildTags (config.Run_ cfg)) (resolveSkipDirs cfg) = Err e ->
      LoadContextRun linters cfg w (Fail e) (withGOROOT goroot w)
        (t0 ++ EvSetenv "GOROOT" goroot :: EvSetBuildDefaultGOROOT goroot
            :: [EvNewResolver (config.BuildTags (config.Run_ cfg))
                  (resolveSkipDirs cfg) (Err e)])
  | run_not_resolved goroot t0 r e :
      discoverGoRoot w = (Return goroot, w, t0) ->
      packages_NewResolver (withGOROOT goroot w)
        (config.BuildTags (config.Run_ cfg)) (resolveSkipDirs cfg) = Ok r ->
      Resolver_Resolve (withGOROOT goroot w) r (resolveArgs cfg) = Err e ->
      LoadContextRun linters cfg w (Fail e) (withGOROOT goroot w)
        (t0 ++ EvSetenv "GOROOT" goroot :: EvSetBuildDefaultGOROOT goroot
            :: EvNewResolver (config.BuildTags (config.Run_ cfg))
                 (resolveSkipDirs cfg) (Ok r)
            :: [EvResolve (resolveArgs cfg) (Err e)])
  | run_not_loaded goroot t0 r pkgProg e tl :
      discoverGoRoot w = (Return goroot, w, t0) ->
      packages_NewResolver (withGOROOT goroot w)
        (config.BuildTags (config.Run_ cfg)) (resolveSkipDirs cfg) = Ok r ->
      Resolver_Resolve (withGOROOT goroot w) r (resolveArgs cfg) = Ok pkgProg ->
      loadWholeAppIfNeeded linters (config.Run_ cfg) pkgProg (withGOROOT goroot w)
        = (Fail e, withGOROOT goroot w, tl) ->
      LoadContextRun linters cfg w (Fail e) (withGOROOT goroot w)
        (t0 ++ EvSetenv "GOROOT" goroot :: EvSetBuildDefaultGOROOT goroot
            :: EvNewResolver (config.BuildTags (config.Run_ cfg))
                 (resolveSkipDirs cfg) (Ok r)
            :: EvResolve (resolveArgs cfg) (Ok pkgProg) :: tl)
  | run_files goroot t0 r pkgProg loaderConfig tl rc :
      discoverGoRoot w = (Return goroot, w, t0) ->
      packages_NewResolver (withGOROOT goroot w)
        (config.BuildTags (config.Run_ cfg)) (resolveSkipDirs cfg) = Ok r ->
      Resolver_Resolve (withGOROOT goroot w) r (resolveArgs cfg) = Ok pkgProg ->
      loadWholeAppIfNeeded linters (config.Run_ cfg) pkgProg (withGOROOT goroot w)
        = (Return (None, loaderConfig), withGOROOT goroot w, tl) ->
      astcache_LoadFromFiles (withGOROOT goroot w)
        (packages.Program.Files pkgProg (config.AnalyzeTests (config.Run_ cfg))) = rc ->
      LoadContextRun linters cfg w
        match rc with
        | Ok astCache =>
            Return {| linter.PkgProgram := pkgProg;
                      linter.Cfg := cfg;
                      linter.Program := None;
                      linter.SSAProgram := None;
                      linter.LoaderConfig := loaderConfig;
                      linter.ASTCache := astCache;
                      linter.NotCompilingPackages := [] |}
        | Err e => Fail e
        end
        (withGOROOT goroot w)
        (t0 ++ EvSetenv "GOROOT" goroot :: EvSetBuildDefaultGOROOT goroot
            :: EvNewResolver (config.BuildTags (config.Run_ cfg))
                 (resolveSkipDirs cfg) (Ok r)
            :: EvResolve (resolveArgs cfg) (Ok pkgProg)
            :: tl
            ++ [EvLoadFromFiles
                  (packages.Program.Files pkgProg
                     (config.AnalyzeTests (config.Run_ cfg))) rc])
  | run_program goroot t0 r pkgProg prog loaderConfig tl rc :
      discoverGoRoot w = (Return goroot, w, t0) ->
      packages_NewResolver (withGOROOT goroot w)
        (config.BuildTags (config.Run_ cfg)) (resolveSkipDirs cfg) = Ok r ->
      Resolver_Resolve (withGOROOT goroot w) r (resolveArgs cfg) = Ok pkgProg ->
      loadWholeAppIfNeeded linters (config.Run_ cfg) pkgProg (withGOROOT goroot w)
        = (Return (Some prog, loaderConfig), withGOROOT goroot w, tl) ->
      astcache_LoadFromProgram (withGOROOT goroot w) prog = rc ->
      LoadContextRun linters cfg w
        match rc with
        | Ok astCache =>
            match separateNotCompilingPackages
                    {| linter.PkgProgram := pkgProg;
                       linter.Cfg := cfg;
                       linter.Program := Some prog;
                       linter.SSAProgram := ssaOf linters prog;
                       linter.LoaderConfig := loaderConfig;
                       linter.ASTCache := astCache;
                       linter.NotCompilingPackages := [] |} with
            | Some lintCtx => Return lintCtx
            | None => Panic "invalid memory address or nil pointer dereference"
            end
        | Err e => Fail e
        end
        (withGOROOT goroot w)
        (t0 ++ EvSetenv "GOROOT" goroot :: EvSetBuildDefaultGOROOT goroot
            :: EvNewResolver (config.BuildTags (config.Run_ cfg))
                 (resolveSkipDirs cfg) (Ok r)
            :: EvResolve (resolveArgs cfg) (Ok pkgProg)
            :: tl ++ ssaTrace linters prog ++ [EvLoadFromProgram prog rc]).

(** The events [loadWholeAppIfNeeded] can leave. *)
Definition ofLoadStage `{Extern} (e : Event) : Prop :=
  match e with
  | EvFromArgs _ _ _ | EvLoad _ _ | EvLogInfo _ => True
  | _ => False
  end.

(** The issues govet reports on a list of packages: those of each package
    it passes on, in the order of the packages. *)
Definition vetIssues `{Extern} (pkgs : list packages.Package.t)
    (analyzeTests checkShadowing : bool) : list govetAPI.Issue :=
  List.concat
    (map (fun pkg =>
            match govetAPI_Run (packages.Package.Files pkg analyzeTests)
                    checkShadowing with
            | Ok issues => issues
            | Err _ => []
            end) pkgs).

(** A govet issue as a finding of the linter [govet]. *)
Definition toIssue (i : govetAPI.Issue) : result_.Issue :=
  {| result_.Pos := govetAPI.Pos i;
     result_.Text := govetAPI.Message i;
     result_.FromLinter := "govet" |}.

(** ** A world to run the code in

    One instance of [Extern], small enough to evaluate: the working
    directory is [/src/app], a path is absolute when it starts with a slash
    and relative to a root that is its prefix, the toolchain answers
    [/usr/local/go] and a newline, every target resolves to the directories
    asked for, the loader returns [sampleProgram], and govet fails on a
    package that holds [broken.go]. *)

Definition isSpace (c : ascii) : bool :=
  let n := nat_of_ascii c in
  (Nat.leb 9 n && Nat.leb n 13) || Nat.eqb n 32.

Fixpoint trimLeft (s : list ascii) : list ascii :=
  match s with
  | c :: s' => if isSpace c then trimLeft s' else s
  | [] => []
  end.

Definition sampleTrimSpace (s : string) : string :=
  string_of_list_ascii
    (rev (trimLeft (rev (trimLeft (list_ascii_of_string s))))).

Definition sampleRel (root p : string) : result string :=
  if String.prefix (root +:+ "/") p
  then Ok (substring (String.length root + 1)
             (String.length p - (String.length root + 1)) p)
  else Err ("Rel: can't make " +:+ p +:+ " relative to " +:+ root).

Definition pkgMain : loader.PackageInfo :=
  {| loader.Pkg := "app"; loader.Importable := false; loader.Errors := [] |}.

Definition pkgBroken : loader.PackageInfo :=
  {| loader.Pkg := "app/broken"; loader.Importable := false;
     loader.Errors := ["broken.go:3:1: undefined: x"] |}.

Definition pkgFmt : loader.PackageInfo :=
  {| loader.Pkg := "fmt"; loader.Importable := true; loader.Errors := [] |}.

Definition pkgDep : loader.PackageInfo :=
  {| loader.Pkg := "dep"; loader.Importable := true;
     loader.Errors := ["dep.go:1:1: expected 'package'"] |}.

Definition sampleProgram : loader.Program :=
  {| loader.Created := Some [pkgMain; pkgBroken];
     loader.Imported := Some (<["fmt" := pkgFmt]> (<["dep" := pkgDep]> ∅)) |}.

Definition sampleVet (files : list string) (checkShadowing : bool)
    : result (list govetAPI.Issue) :=
  if bool_decide ("broken.go" ∈ files) then Err "can't parse broken.go"
  else Ok (map (fun f =>
             {| govetAPI.Pos := {| token.Filename := f; token.Offset := 0;
                                   token.Line := 1; token.Column := 1 |};
                govetAPI.Message := "possible formatting directive" |}) files).

Definition sampleExtern : Extern := {|
  Resolver := unit;
  ssa_Program := loader.Program * bool;
  astcache_Cache := list string;
  parser_ParseComments := 4;
  ssa_GlobalDebug := 64;
  os_Getwd := fun _ => Ok "/src/app";
  filepath_IsAbs := String.prefix "/";
  filepath_Rel := sampleRel;
  exec_Output := fun _ _ _ => Ok ("/usr/local/go" +:+ String "010"%char "");
  strings_TrimSpace := sampleTrimSpace;
  packages_StdExcludeDirRegexps := ["vendor$"; "third_party$"; "testdata$"];
  packages_NewResolver := fun _ _ _ => Ok tt;
  Resolver_Resolve := fun w _ args =>
    Ok {| packages.Program.BuildContext := build_Default w;
          packages.Program.Dirs := args;
          packages.Program.Files := fun _ => [];
          packages.Program.Packages := [] |};
  loader_FromArgs := fun _ conf _ _ => (Ok [], conf);
  loader_Load := fun _ _ => Ok sampleProgram;
  ssautil_CreateProgram := fun prog _ => (prog, false);
  ssa_Build := fun s => (s.1, true);
  astcache_LoadFromProgram := fun _ prog => Ok (loader.Pkg <$> createdOf prog);
  astcache_LoadFromFiles := fun _ files => Ok files;
  rangeOrder := fun m => (map_to_list m).*1;
  govetAPI_Run := sampleVet
|}.

Definition sampleWorld : World :=
  {| environ := ∅;
     build_Default := {| build.GOROOT := ""; build.BuildTags := [] |} |}.

Definition sampleConfig : config.Config :=
  {| config.Run_ :=
       {| config.Args := []; config.BuildTags := []; config.AnalyzeTests := true;
          config.SkipFiles := []; config.SkipDirs := [] |};
     config.LintersSettings_ :=
       {| config.Govet := {| config.CheckShadowing := false |} |} |}.

(** Three analyzers: one that needs nothing, one that needs the program,
    one that needs the program and its SSA representation. *)
Definition gofmt : linter.Config :=
  {| linter.Name := "gofmt"; linter.NeedsProgramLoading := false;
     linter.NeedsSSARepresentation := false |}.

Definition errcheck : linter.Config :=
  {| linter.Name := "errcheck"; linter.NeedsProgramLoading := true;
     linter.NeedsSSARepresentation := false |}.

Definition megacheck : linter.Config :=
  {| linter.Name := "megacheck"; linter.NeedsProgramLoading := true;
     linter.NeedsSSARepresentation := true |}.

(** A context as [LoadContext] builds it before it partitions the
    packages. *)
Definition sampleContext : @linter.Context sampleExtern :=
  @linter.Build_Context sampleExtern
    {| packages.Program.BuildContext := build_Default sampleWorld;
       packages.Program.Dirs := ["./..."];
       packages.Program.Files := fun _ => [];
       packages.Program.Packages :=
         [ {| packages.Package.Files := fun _ => ["main.go"] |};
           {| packages.Package.Files := fun _ => ["broken.go"] |};
           {| packages.Package.Files := fun _ => ["util.go"] |} ] |}
    sampleConfig (Some sampleProgram) None None (@nil string) [].

(** A program whose packages all compile, and contexts that hold it. *)
Definition cleanProgram : loader.Program :=
  {| loader.Created := Some [pkgMain];
     loader.Imported := Some (<["fmt" := pkgFmt]> ∅) |}.

Definition cleanContext : @linter.Context sampleExtern :=
  @linter.Build_Context sampleExtern
    {| packages.Program.BuildContext := build_Default sampleWorld;
       packages.Program.Dirs := ["./..."];
       packages.Program.Files := fun _ => [];
       packages.Program.Packages :=
         [ {| packages.Package.Files := fun _ => ["main.go"] |};
           {| packages.Package.Files := fun _ => [] |};
           {| packages.Package.Files := fun _ => ["util.go"; "io.go"] |} ] |}
    sampleConfig (Some cleanProgram) None None (@nil string) [].

(** The sample context once its packages are partitioned. *)
Definition partitionedContext : @linter.Context sampleExtern :=
  @linter.Build_Context sampleExtern
    (linter.PkgProgram sampleContext) sampleConfig
    (Some {| loader.Created := Some [pkgMain];
             loader.Imported := Some (<["fmt" := pkgFmt]> ∅) |})
    None None (@nil string) [pkgBroken; pkgDep].

(** The git commands [getGitInfo] and the first [main] run, in their
    order. *)
Definition gitInfoCommands : list (list string) :=
  [ ["describe"; "--tags"; "--abbrev=0"];
    ["rev-parse"; "HEAD"];
    ["rev-parse"; "--short"; "HEAD"];
    ["rev-parse"; "--abbrev-ref"; "HEAD"] ].

(** How a git command ends: whether [cmd.Run] returns an error, and what
    the command wrote. *)
Definition gitFails `{Tools} (args : list string) : Prop :=
  is_Some (exec_Run "git" args).1.1.

Definition gitStdout `{Tools} (args : list string) : string :=
  (exec_Run "git" args).1.2.

Definition gitStderr `{Tools} (args : list string) : string :=
  (exec_Run "git" args).2.

(** The name [setTag] gives the image for a parsed tag template. *)
Definition imageName `{Tools} (name : string) (tmplData : AquariumTemplate)
    (t : Template) : string :=
  name +:+ ":" +:+ template_Execute t tmplData.

(** ** A repository and a docker daemon to run the tool with

    The working tree is on branch [main] at tag [v1.4.2]; the templates are
    read as plain text with [{{tag}}] standing for the raw tag; the daemon
    refuses the tag [latest]. *)

Definition sampleGit (name : string) (args : list string)
    : option error * string * string :=
  if bool_decide (args = ["describe"; "--tags"; "--abbrev=0"])
  then (None, "v1.4.2" +:+ nl, "")
  else if bool_decide (args = ["rev-parse"; "HEAD"])
  then (None, "0123456789abcdef" +:+ nl, "")
  else if bool_decide (args = ["rev-parse"; "--short"; "HEAD"])
  then (None, "0123456" +:+ nl, "")
  else if bool_decide (args = ["rev-parse"; "--abbrev-ref"; "HEAD"])
  then (None, "main" +:+ nl, "")
  else (Some "exit status 1", "", "git: unknown command").

Definition sampleSemver (s : string) : result semver.Version :=
  if String.eqb s "1.4.2"
  then Ok {| semver.Major := 1; semver.Minor := 4; semver.Patch := 2 |}
  else Err "No Major.Minor.Patch elements found".

Definition sampleTools : Tools := {|
  Template := string;
  DockerClient := unit;
  exec_Run := sampleGit;
  tools_TrimSpace := sampleTrimSpace;
  semver_Make := sampleSemver;
  ioutil_ReadFile := fun _ => Ok "image_names: [app, registry/app]";
  yaml_Unmarshal := fun _ =>
    Ok {| TagFormat := ["{{tag}}"; "stable"]; LabelFormat := [];
          ImageNames := ["app"; "registry/app"] |};
  client_NewEnvClient := Ok tt;
  template_Parse := fun text =>
    if String.prefix "{{" text && negb (String.eqb text "{{tag}}")
    then Err "template: tag_template:1: function not defined"
    else Ok text;
  template_Execute := fun t data =>
    if String.eqb t "{{tag}}" then GitTag.Raw (Tag data) else t;
  docker_ImageTag := fun _ _ imgName =>
    if String.eqb imgName "app:latest"
    then Some "Error response from daemon: refusing latest"
    else None;
  json_Marshal := fun images =>
    match images with
    | None => Ok "{images:null}"
    | Some l => Ok ("{images:[" +:+ strings_Join l "," +:+ "]}")
    end
|}.

Definition sampleTemplate : AquariumTemplate :=
  {| Tag := {| GitTag.Major := "1"; GitTag.Minor := "4"; GitTag.Patch := "2";
               GitTag.Raw := "1.4.2"; GitTag.SemVer := true |};
     Commit := {| ShortHash := "0123456"; LongHash := "0123456789abcdef" |};
     Branch := {| Name := "main" |} |}.

Definition sampleAquariumConfig : AquariumConfig :=
  {| TagFormat := ["{{tag}}"; "stable"]; LabelFormat := [];
     ImageNames := ["app"; "registry/app"] |}.

Definition sampleFlags : Flags := {| imgID := "sha256:abc"; outputFormat := "text" |}.

(** * Properties *)

(** ** The capability query *)

Lemma isFullImportNeeded_spec (linters : list linter.Config) :
  isFullImportNeeded linters = true <->
  exists l, l ∈ linters /\ linter.NeedsProgramLoading l = true.
Proof.
  induction linters as [|l rest IH]; simpl.
  - split; [discriminate|]. intros (l & Hl & _). by apply elem_of_nil in Hl.
  - destruct (linter.NeedsProgramLoading l) eqn:Hl.
    + split; [|done]. intros _. exists l. split; [left|done].
    + rewrite IH. split.
      * intros (l' & Hin & Hl'). exists l'. split; [by right|done].
      * intros (l' & Hin & Hl'). apply elem_of_cons in Hin as [->|Hin].
        -- congruence.
        -- by exists l'.
Qed.

Lemma isSSAReprNeeded_spec (linters : list linter.Config) :
  isSSAReprNeeded linters = true <->
  exists l, l ∈ linters /\ linter.NeedsSSARepresentation l = true.
Proof.
  induction linters as [|l rest IH]; simpl.
  - split; [discriminate|]. intros (l & Hl & _). by apply elem_of_nil in Hl.
  - destruct (linter.NeedsSSARepresentation l) eqn:Hl.
    + split; [|done]. intros _. exists l. split; [left|done].
    + rewrite IH. split.
      * intros (l' & Hin & Hl'). exists l'. split; [by right|done].
      * intros (l' & Hin & Hl'). apply elem_of_cons in Hin as [->|Hin].
        -- congruence.
        -- by exists l'.
Qed.

Lemma isFullImportNeeded_false (linters : list linter.Config) :
  isFullImportNeeded linters = false <->
  forall l, l ∈ linters -> linter.NeedsProgramLoading l = false.
Proof.
  split.
  - intros Hf l Hin. destruct (linter.NeedsProgramLoading l) eqn:Hl; [|done].
    assert (isFullImportNeeded linters = true) by (apply isFullImportNeeded_spec; eauto).
    congruence.
  - intros Hall. destruct (isFullImportNeeded linters) eqn:Hf; [|done].
    apply isFullImportNeeded_spec in Hf as (l & Hin & Hl).
    rewrite (Hall l Hin) in Hl. discriminate.
Qed.

(** C2: for every list of analyzer configurations, [isFullImportNeeded]
    answers true if and only if at least one analyzer declares that it needs
    program loading, and [isSSAReprNeeded] answers true if and only if at
    least one declares that it needs the SSA representation. Both are
    functions of the analyzer list alone: they take no process state and
    leave no event, being outside the monad [M]. *)
Theorem capability_query (linters : list linter.Config) :
  (isFullImportNeeded linters = true <->
     exists l, l ∈ linters /\ linter.NeedsProgramLoading l = true)
  /\ (isSSAReprNeeded linters = true <->
        exists l, l ∈ linters /\ linter.NeedsSSARepresentation l = true).
Proof.
  split; [apply isFullImportNeeded_spec | apply isSSAReprNeeded_spec].
Qed.

(** ** normalizePaths *)

Section NormalizePaths.
Context `{Extern}.

Lemma normalizePaths_loop_ok root paths ret0 ret :
  normalizePaths_loop root paths ret0 = Ok ret ->
  exists outs, ret = ret0 ++ outs /\ Forall2 (normalized root) paths outs.
Proof.
  revert ret0. induction paths as [|p rest IH]; simpl; intros ret0 Hloop.
  - exists []. split; [|constructor]. inversion Hloop. by rewrite app_nil_r.
  - destruct (filepath_IsAbs p) eqn:Habs.
    + destruct (filepath_Rel root p) as [relPath|err] eqn:Hrel; [|discriminate].
      apply IH in Hloop as (outs & -> & Houts).
      exists (("./" +:+ relPath) :: outs). split; [by rewrite <- app_assoc|].
      constructor; [|done]. unfold normalized. rewrite Habs. eauto.
    + apply IH in Hloop as (outs & -> & Houts).
      exists (("./" +:+ p) :: outs). split; [by rewrite <- app_assoc|].
      constructor; [|done]. unfold normalized. by rewrite Habs.
Qed.

Lemma normalizePaths_loop_err root paths ret0 :
  (exists e, normalizePaths_loop root paths ret0 = Err e) <->
  exists p e, p ∈ paths /\ filepath_IsAbs p = true /\ filepath_Rel root p = Err e.
Proof.
  revert ret0. induction paths as [|p rest IH]; simpl; intros ret0.
  - split; [intros [e He]; discriminate|].
    intros (p & e & Hin & _). by apply elem_of_nil in Hin.
  - destruct (filepath_IsAbs p) eqn:Habs.
    + destruct (filepath_Rel root p) as [relPath|err] eqn:Hrel.
      * rewrite IH. split.
        -- intros (q & e & Hin & Hq). exists q, e. split; [by right|done].
        -- intros (q & e & Hin & Hq1 & Hq2).
           apply elem_of_cons in Hin as [->|Hin]; [congruence|]. by exists q, e.
      * split; [|eauto]. intros _. exists p, err. split; [left|done].
    + rewrite IH. split.
      * intros (q & e & Hin & Hq). exists q, e. split; [by right|done].
      * intros (q & e & Hin & Hq1 & Hq2).
        apply elem_of_cons in Hin as [->|Hin]; [congruence|]. by exists q, e.
Qed.

(** C6: [normalizePaths] never panics and changes nothing of the process.
    It returns an error exactly when [os.Getwd] fails or when
    [filepath.Rel] fails on an absolute input path; when it succeeds, the
    result has one path per input path, in input order, each starting
    with [./]: an absolute input replaced by its path relative to the
    working directory, any other input unchanged. *)
Theorem normalizePaths_spec (paths : list string) (w : World) :
  match normalizePaths paths w with
  | (o, w', tr) =>
      w' = w /\ tr = []
      /\ (forall msg, o <> Panic msg)
      /\ ((exists e, o = Fail e) <->
            (exists e, os_Getwd w = Err e)
            \/ (exists root p e,
                  os_Getwd w = Ok root /\ p ∈ paths
                  /\ filepath_IsAbs p = true /\ filepath_Rel root p = Err e))
      /\ (forall ret, o = Return ret ->
            exists root,
              os_Getwd w = Ok root /\ Forall2 (normalized root) paths ret)
  end.
Proof.
  unfold normalizePaths, bind, ask, check, ret, fail.
  destruct (os_Getwd w) as [root|e] eqn:Hwd; simpl.
  - destruct (normalizePaths_loop root paths []) as [outs|e] eqn:Hloop; simpl.
    + repeat split; try done.
      * intros [e He]. discriminate.
      * intros [[e He]|(root' & p & e & Hroot & Hp)]; [discriminate|].
        inversion Hroot; subst root'.
        assert (exists e, normalizePaths_loop root paths [] = Err e) as [e' He'].
        { apply normalizePaths_loop_err. by exists p, e. }
        congruence.
      * intros ret0 Hret. inversion Hret; subst ret0. exists root. split; [done|].
        apply normalizePaths_loop_ok in Hloop as (outs' & -> & Houts). done.
    + repeat split; try done.
      * intros _. right.
        assert (exists e, normalizePaths_loop root paths [] = Err e) as Hex by eauto.
        apply normalizePaths_loop_err in Hex as (p & e' & Hp). by exists root, p, e'.
      * eauto.
  - repeat split; try done.
    + intros _. left. eauto.
    + eauto.
Qed.

End NormalizePaths.

(** C8: every pattern of the built-in exclusion list [DefaultExcludePatterns]
    compiles as a regular expression: [regexp.Compile] returns an expression,
    never a compilation error, for each of them. *)
Theorem DefaultExcludePatterns_compile :
  Forall (fun p => is_Some (regexp.Compile (config.Pattern p)))
         config.DefaultExcludePatterns.
Proof.
  unfold config.DefaultExcludePatterns.
  repeat (constructor; [vm_compute; eexists; reflexivity|]).
  constructor.
Qed.

(** ** Govet.Run *)

Section GovetRun.
Context `{Extern}.

Lemma Run_loop_app pre post tests shadow acc acc' :
  Govet.Run_loop pre tests shadow acc = Ok acc' ->
  Govet.Run_loop (pre ++ post) tests shadow acc = Govet.Run_loop post tests shadow acc'.
Proof.
  revert acc. induction pre as [|q pre IH]; simpl; intros acc Hpre.
  - by inversion Hpre.
  - destruct (govetAPI_Run (packages.Package.Files q tests) shadow); [|discriminate].
    by apply IH.
Qed.

Lemma Run_loop_all_ok pkgs tests shadow acc :
  (forall q, q ∈ pkgs ->
     exists issues, govetAPI_Run (packages.Package.Files q tests) shadow = Ok issues) ->
  exists acc', Govet.Run_loop pkgs tests shadow acc = Ok acc'.
Proof.
  revert acc. induction pkgs as [|q pkgs IH]; simpl; intros acc Hall; [eauto|].
  destruct (Hall q) as [issues ->]; [left|].
  apply IH. intros q' Hq'. apply Hall. by right.
Qed.

Lemma Run_loop_none pkgs tests shadow acc :
  (forall q, q ∈ pkgs ->
     govetAPI_Run (packages.Package.Files q tests) shadow = Ok []) ->
  Govet.Run_loop pkgs tests shadow acc = Ok acc.
Proof.
  revert acc. induction pkgs as [|q pkgs IH]; simpl; intros acc Hall; [done|].
  rewrite (Hall q); [|left]. rewrite app_nil_r.
  apply IH. intros q' Hq'. apply Hall. by right.
Qed.

Lemma Run_loop_first_error pkgs tests shadow acc :
  (exists q err, q ∈ pkgs
     /\ govetAPI_Run (packages.Package.Files q tests) shadow = Err err) ->
  exists pre q post err,
    pkgs = pre ++ q :: post
    /\ (forall p, p ∈ pre ->
          exists issues, govetAPI_Run (packages.Package.Files p tests) shadow = Ok issues)
    /\ govetAPI_Run (packages.Package.Files q tests) shadow = Err err
    /\ Govet.Run_loop pkgs tests shadow acc = Err err.
Proof.
  revert acc. induction pkgs as [|p pkgs IH]; intros acc (q & err & Hin & Hq).
  - by apply elem_of_nil in Hin.
  - simpl. destruct (govetAPI_Run (packages.Package.Files p tests) shadow)
      as [issues|e] eqn:Hp.
    + apply elem_of_cons in Hin as [->|Hin]; [congruence|].
      destruct (IH (acc ++ issues)) as (pre & q' & post & err' & -> & Hpre & Hq' & Hrun);
        [by exists q, err|].
      exists (p :: pre), q', post, err'. repeat split; try done.
      intros p' Hp'. apply elem_of_cons in Hp' as [->|Hp']; eauto.
    + exists [], p, pkgs, e. repeat split; try done.
      intros p' Hp'. by apply elem_of_nil in Hp'.
Qed.

(** C10: [Govet.Run] is fail-fast and all-or-nothing. With [pkgs] the
    packages of the program and [vet pkg] the govet analysis of one of
    them: when the analysis of a package returns an error after every
    package before it succeeded, [Run] returns nil findings and that very
    error, whatever issues the earlier packages had produced; when the
    analysis of some package returns an error, [Run] returns nil findings
    and an error; and when every package succeeds without an issue, [Run]
    returns nil findings and a nil error. *)
Theorem Govet_Run_fail_fast (lintCtx : linter.Context) :
  let pkgs := packages.Program.Packages (linter.PkgProgram lintCtx) in
  let vet pkg :=
    govetAPI_Run
      (packages.Package.Files pkg (config.AnalyzeTests (config.Run_ (linter.Cfg lintCtx))))
      (config.CheckShadowing (config.Govet (linter.Settings lintCtx))) in
  (forall pre pkg post err,
      pkgs = pre ++ pkg :: post ->
      (forall q, q ∈ pre -> exists issues, vet q = Ok issues) ->
      vet pkg = Err err ->
      Govet.Run lintCtx = (None, Some err))
  /\ ((exists pkg err, pkg ∈ pkgs /\ vet pkg = Err err) ->
      exists err, Govet.Run lintCtx = (None, Some err))
  /\ ((forall pkg, pkg ∈ pkgs -> vet pkg = Ok []) ->
      Govet.Run lintCtx = (None, None)).
Proof.
  intros pkgs vet. subst pkgs vet. unfold Govet.Run. repeat split.
  - intros pre pkg post err -> Hpre Hpkg.
    destruct (Run_loop_all_ok pre _ _ [] Hpre) as [acc Hacc].
    rewrite (Run_loop_app _ (pkg :: post) _ _ _ _ Hacc). simpl.
    by rewrite Hpkg.
  - intros Hex.
    destruct (Run_loop_first_error _ _ _ [] Hex) as (_ & _ & _ & err & _ & _ & _ & ->).
    by exists err.
  - intros Hall. by rewrite (Run_loop_none _ _ _ [] Hall).
Qed.

End GovetRun.

(** ** separateNotCompilingPackages *)

Section Partition.
Context `{Extern}.

Lemma hasErrors_true (info : loader.PackageInfo) :
  negb (len (loader.Errors info) =? 0)%nat = true <-> ~ compiles info.
Proof.
  unfold compiles, len. destruct (loader.Errors info); simpl; split; done.
Qed.

Lemma hasErrors_false (info : loader.PackageInfo) :
  negb (len (loader.Errors info) =? 0)%nat = false <-> compiles info.
Proof.
  unfold compiles, len. destruct (loader.Errors info); simpl; split; done.
Qed.

Lemma separateCreated_spec created notCompiling compilingCreated :
  separateCreated created notCompiling compilingCreated =
  (notCompiling ++ filter (fun i => ~ compiles i) created,
   compilingCreated ++ filter compiles created).
Proof.
  revert notCompiling compilingCreated.
  induction created as [|info rest IH]; intros nc cc; simpl.
  - by rewrite !app_nil_r.
  - destruct (negb (len (loader.Errors info) =? 0)%nat) eqn:Herr.
    + apply hasErrors_true in Herr. rewrite IH.
      rewrite (filter_cons_True (fun i => ~ compiles i)) by done.
      rewrite (filter_cons_False compiles) by done.
      by rewrite <- app_assoc.
    + apply hasErrors_false in Herr. rewrite IH.
      rewrite (filter_cons_False (fun i => ~ compiles i)) by tauto.
      rewrite (filter_cons_True compiles) by done.
      by rewrite <- app_assoc.
Qed.

(** What the loop over the map leaves, for any order of the keys: the
    map loses only entries with errors, exactly those are appended to the
    side list, and an entry with errors whose key came up is gone. *)
Lemma separateImported_spec order (m : gmap string loader.PackageInfo) notCompiling :
  exists m' added,
    separateImported order m notCompiling = (m', notCompiling ++ added)
    /\ (forall k info, m' !! k = Some info -> m !! k = Some info)
    /\ (forall k info, m !! k = Some info -> compiles info -> m' !! k = Some info)
    /\ (forall k info, m !! k = Some info -> ~ compiles info -> k ∈ order ->
          m' !! k = None)
    /\ (map_to_list m).*2 ≡ₚ (map_to_list m').*2 ++ added
    /\ Forall (fun i => ~ compiles i) added.
Proof.
  revert m notCompiling. induction order as [|k rest IH]; intros m nc; simpl.
  - exists m, []. rewrite !app_nil_r. repeat split; try done.
    intros k info _ _ Hin. by apply elem_of_nil in Hin.
  - destruct (m !! k) as [info|] eqn:Hk.
    + destruct (negb (len (loader.Errors info) =? 0)%nat) eqn:Herr.
      * apply hasErrors_true in Herr.
        destruct (IH (delete k m) (nc ++ [info]))
          as (m' & added & -> & Hsub & Hkeep & Hgone & Hperm & Hadded).
        exists m', (info :: added). rewrite <- app_assoc. simpl.
        repeat split.
        -- intros k' i' Hk'. apply Hsub in Hk'.
           apply lookup_delete_Some in Hk'. tauto.
        -- intros k' i' Hk' Hc. apply Hkeep; [|done].
           apply lookup_delete_Some. split; [|done]. intros <-. congruence.
        -- intros k' i' Hk' Hc Hin. destruct (decide (k' = k)) as [->|Hne].
           ++ destruct (m' !! k) as [i''|] eqn:Hm'; [|done].
              apply Hsub in Hm'. by rewrite lookup_delete_eq in Hm'.
           ++ apply (Hgone k' i'); [|done|].
              ** apply lookup_delete_Some. done.
              ** apply elem_of_cons in Hin as [?|?]; done.
        -- rewrite <- (map_to_list_delete m k info Hk). simpl.
           rewrite Hperm. by rewrite Permutation_middle.
        -- by constructor.
      * apply hasErrors_false in Herr.
        destruct (IH m nc) as (m' & added & -> & Hsub & Hkeep & Hgone & Hperm & Hadded).
        exists m', added. repeat split; try done.
        intros k' i' Hk' Hc Hin. apply elem_of_cons in Hin as [->|Hin].
        -- congruence.
        -- by apply (Hgone k' i').
    + destruct (IH m nc) as (m' & added & -> & Hsub & Hkeep & Hgone & Hperm & Hadded).
      exists m', added. repeat split; try done.
      intros k' i' Hk' Hc Hin. apply elem_of_cons in Hin as [->|Hin].
      -- congruence.
      -- by apply (Hgone k' i').
Qed.

(** The run of [separateNotCompilingPackages] on a context that holds a
    program: what it leaves in the created list, in the imported map and in
    the side list. *)
Lemma separateNotCompilingPackages_run (lintCtx : linter.Context) prog :
  linter.Program lintCtx = Some prog ->
  exists lintCtx' prog' addedI,
    separateNotCompilingPackages lintCtx = Some lintCtx'
    /\ linter.Program lintCtx' = Some prog'
    /\ linter.NotCompilingPackages lintCtx' =
         linter.NotCompilingPackages lintCtx
         ++ filter (fun i => ~ compiles i) (createdOf prog) ++ addedI
    /\ createdOf prog' = filter compiles (createdOf prog)
    /\ (forall k info, importedOf prog' !! k = Some info -> importedOf prog !! k = Some info)
    /\ (forall k info, importedOf prog !! k = Some info -> compiles info ->
          importedOf prog' !! k = Some info)
    /\ (forall k info, importedOf prog !! k = Some info -> ~ compiles info ->
          k ∈ rangeOrder (importedOf prog) -> importedOf prog' !! k = None)
    /\ importedList prog ≡ₚ importedList prog' ++ addedI
    /\ Forall (fun i => ~ compiles i) addedI.
Proof.
  intros Hprog. unfold separateNotCompilingPackages. rewrite Hprog.
  unfold createdOf, importedOf, importedList, importedOf.
  destruct prog as [created imported]. simpl.
  destruct created as [created|]; destruct imported as [imported|]; simpl.
  - rewrite separateCreated_spec. simpl.
    destruct (separateImported_spec (rangeOrder imported) imported
                (linter.NotCompilingPackages lintCtx
                 ++ filter (fun i => ~ compiles i) created))
      as (m' & added & -> & Hsub & Hkeep & Hgone & Hperm & Hadded).
    eexists _, _, added. simpl. split; [reflexivity|]. simpl.
    rewrite <- app_assoc. repeat split; done.
  - rewrite separateCreated_spec. simpl.
    eexists _, _, []. simpl. split; [reflexivity|]. simpl.
    rewrite !app_nil_r. repeat split; done.
  - destruct (separateImported_spec (rangeOrder imported) imported
                (linter.NotCompilingPackages lintCtx))
      as (m' & added & -> & Hsub & Hkeep & Hgone & Hperm & Hadded).
    eexists _, _, added. simpl. split; [reflexivity|]. simpl.
    repeat split; done.
  - eexists _, _, []. simpl. split; [reflexivity|]. simpl.
    rewrite app_nil_r. repeat split; done.
Qed.

(** C1: after [separateNotCompilingPackages] has run on a context that holds
    a loaded program, every package of the program that carries a compile
    error is in [NotCompilingPackages] and neither in the created list nor
    in the imported map, and every package without a compile error is still
    in the collection it was in: in the created list, or in the imported
    map under its key. The range over the imported map is assumed to come
    by every key, as Go's does. *)
Theorem separateNotCompilingPackages_partition (lintCtx : linter.Context) prog :
  linter.Program lintCtx = Some prog ->
  rangeVisitsAll (importedOf prog) ->
  exists lintCtx' prog',
    separateNotCompilingPackages lintCtx = Some lintCtx'
    /\ linter.Program lintCtx' = Some prog'
    /\ (forall info, loaded prog info -> ~ compiles info ->
          info ∈ linter.NotCompilingPackages lintCtx'
          /\ (info ∉ createdOf prog')
          /\ ~ inImported prog' info)
    /\ (forall info, compiles info ->
          (info ∈ createdOf prog -> info ∈ createdOf prog')
          /\ (forall k, importedOf prog !! k = Some info ->
                importedOf prog' !! k = Some info)).
Proof.
  intros Hprog Hrange.
  destruct (separateNotCompilingPackages_run lintCtx prog Hprog)
    as (lintCtx' & prog' & addedI & Hrun & Hprog' & Hside & Hcreated
        & Hsub & Hkeep & Hgone & Hperm & Hadded).
  exists lintCtx', prog'. split; [done|]. split; [done|]. split.
  - intros info Hloaded Herr. split; [|split].
    + rewrite Hside. destruct Hloaded as [Hc|[k Hk]].
      * apply elem_of_app. right. apply elem_of_app. left.
        by apply list_elem_of_filter.
      * apply elem_of_app. right. apply elem_of_app. right.
        assert (info ∈ importedList prog) as Hin.
        { unfold importedList. apply list_elem_of_fmap. exists (k, info).
          split; [done|]. by apply elem_of_map_to_list. }
        rewrite Hperm in Hin. apply elem_of_app in Hin as [Hin|Hin]; [|done].
        unfold importedList in Hin. apply list_elem_of_fmap in Hin as ([k' i'] & -> & Hin).
        apply elem_of_map_to_list in Hin. simpl in *.
        pose proof (Hsub _ _ Hin) as Hin0.
        rewrite (Hgone k' i' Hin0 Herr) in Hin; [done|].
        apply Hrange. by rewrite Hin0.
    + rewrite Hcreated. intros Hin. apply list_elem_of_filter in Hin. tauto.
    + intros [k Hk]. pose proof (Hsub _ _ Hk) as Hk0.
      rewrite (Hgone k info Hk0 Herr) in Hk; [done|].
      apply Hrange. by rewrite Hk0.
  - intros info Hc. split.
    + intros Hin. rewrite Hcreated. by apply list_elem_of_filter.
    + intros k Hk. by apply Hkeep.
Qed.

(** C9: [separateNotCompilingPackages] neither drops nor duplicates a
    package: the packages of the created list and of the imported map,
    counted with multiplicity, are afterwards those of the created list, of
    the imported map and of what was appended to the side list. The created
    list keeps its packages without errors in their order, and the side list
    only grows at its end. A package of the program that sat in one
    collection only (not both in the created list and in the imported map,
    and not yet in the side list) sits afterwards in exactly one of the
    created list, the imported map and the side list. *)
Theorem separateNotCompilingPackages_conserves (lintCtx : linter.Context) prog :
  linter.Program lintCtx = Some prog ->
  rangeVisitsAll (importedOf prog) ->
  exists lintCtx' prog' added,
    separateNotCompilingPackages lintCtx = Some lintCtx'
    /\ linter.Program lintCtx' = Some prog'
    /\ createdOf prog ++ importedList prog
         ≡ₚ createdOf prog' ++ importedList prog' ++ added
    /\ createdOf prog' = filter compiles (createdOf prog)
    /\ linter.NotCompilingPackages lintCtx' =
         linter.NotCompilingPackages lintCtx ++ added
    /\ (forall info,
          loaded prog info ->
          ~ (info ∈ createdOf prog /\ inImported prog info) ->
          info ∉ linter.NotCompilingPackages lintCtx ->
          exactlyOne (info ∈ createdOf prog') (inImported prog' info)
                     (info ∈ linter.NotCompilingPackages lintCtx')).
Proof.
  intros Hprog Hrange.
  destruct (separateNotCompilingPackages_run lintCtx prog Hprog)
    as (lintCtx' & prog' & addedI & Hrun & Hprog' & Hside & Hcreated
        & Hsub & Hkeep & Hgone & Hperm & Hadded).
  exists lintCtx', prog', (filter (fun i => ~ compiles i) (createdOf prog) ++ addedI).
  split; [done|]. split; [done|]. split; [|split; [done|split; [done|]]].
  - rewrite Hcreated, Hperm.
    rewrite <- (filter_app_complement compiles (createdOf prog)) at 1.
    rewrite <- !app_assoc. apply Permutation_app_head.
    rewrite !app_assoc. apply Permutation_app_tail. apply Permutation_app_comm.
  - intros info Hloaded Hone Hfresh.
    assert (forall k, importedOf prog' !! k = Some info -> compiles info) as Hleft.
    { intros k Hk. destruct (decide (compiles info)) as [|Herr]; [done|].
      pose proof (Hsub _ _ Hk) as Hk0.
      rewrite (Hgone k info Hk0 Herr) in Hk; [done|].
      apply Hrange. by rewrite Hk0. }
    destruct (decide (compiles info)) as [Hc|Herr].
    + assert (info ∉ linter.NotCompilingPackages lintCtx') as Hnot.
      { rewrite Hside. intros Hin.
        apply elem_of_app in Hin as [Hin|Hin]; [done|].
        apply elem_of_app in Hin as [Hin|Hin].
        - apply list_elem_of_filter in Hin. tauto.
        - rewrite Forall_forall in Hadded. by apply (Hadded info). }
      destruct Hloaded as [Hin|[k Hk]].
      * left. split; [|split; [|done]].
        -- rewrite Hcreated. by apply list_elem_of_filter.
        -- intros [k Hk]. apply Hone. split; [done|]. exists k. by apply Hsub.
      * right. left. split; [|split; [|done]].
        -- rewrite Hcreated. intros Hin. apply list_elem_of_filter in Hin.
           apply Hone. split; [tauto|]. by exists k.
        -- exists k. by apply Hkeep.
    + right. right. split; [|split].
      * rewrite Hcreated. intros Hin. apply list_elem_of_filter in Hin. tauto.
      * intros [k Hk]. apply Herr. by apply (Hleft k).
      * rewrite Hside. destruct Hloaded as [Hin|[k Hk]].
        -- apply elem_of_app. right. apply elem_of_app. left.
           by apply list_elem_of_filter.
        -- apply elem_of_app. right. apply elem_of_app. right.
           assert (info ∈ importedList prog) as Hin.
           { unfold importedList. apply list_elem_of_fmap. exists (k, info).
             split; [done|]. by apply elem_of_map_to_list. }
           rewrite Hperm in Hin. apply elem_of_app in Hin as [Hin|Hin]; [|done].
           unfold importedList in Hin.
           apply list_elem_of_fmap in Hin as ([k' i'] & -> & Hin).
           apply elem_of_map_to_list in Hin. simpl in *.
           destruct Herr. by apply (Hleft k').
Qed.

End Partition.

(** ** loadWholeAppIfNeeded and LoadContext *)

Section Load.
Context `{Extern}.

Lemma loadWholeAppIfNeeded_false linters cfg pkgProg w :
  isFullImportNeeded linters = false ->
  loadWholeAppIfNeeded linters cfg pkgProg w = (Return (None, None), w, []).
Proof. intros Hf. unfold loadWholeAppIfNeeded. by rewrite Hf. Qed.

(** [discoverGoRoot], case by case. *)
Lemma discoverGoRoot_set w :
  os_Getenv "GOROOT" w <> "" ->
  discoverGoRoot w = (Return (os_Getenv "GOROOT" w), w, []).
Proof.
  intros Hset. unfold discoverGoRoot, bind, ask, ret. simpl.
  destruct (String.eqb_spec (os_Getenv "GOROOT" w) ""); [done|]. done.
Qed.

Lemma discoverGoRoot_unset w :
  os_Getenv "GOROOT" w = "" ->
  discoverGoRoot w =
    match exec_Output w "go" ["env"; "GOROOT"] with
    | Ok output =>
        (Return (strings_TrimSpace output), w,
         [EvExec "go" ["env"; "GOROOT"] (Ok output)])
    | Err err =>
        (Fail ("can't execute go env GOROOT: " +:+ err), w,
         [EvExec "go" ["env"; "GOROOT"] (Err err)])
    end.
Proof.
  intros Hunset. unfold discoverGoRoot, bind, ask, call, check, ret, fail. simpl.
  rewrite Hunset. simpl. by destruct (exec_Output w "go" ["env"; "GOROOT"]).
Qed.

Lemma discoverGoRoot_run w :
  exists o t0,
    discoverGoRoot w = (o, w, t0)
    /\ (forall msg, o <> Panic msg)
    /\ (forall e, e ∈ t0 -> exists r, e = EvExec "go" ["env"; "GOROOT"] r).
Proof.
  destruct (decide (os_Getenv "GOROOT" w = "")) as [Hunset|Hset].
  - rewrite (discoverGoRoot_unset w Hunset).
    destruct (exec_Output w "go" ["env"; "GOROOT"]) as [out|err];
      eexists _, _; (split; [reflexivity|]); (split; [done|]);
      intros e He; apply list_elem_of_singleton in He; eauto.
  - rewrite (discoverGoRoot_set w Hset). eexists _, _. split; [reflexivity|].
    split; [done|]. intros e He. by apply elem_of_nil in He.
Qed.

(** Membership in a trace that is written out. *)
Ltac split_elem :=
  repeat match goal with
  | H : _ ∈ _ ++ _ |- _ => apply elem_of_app in H as [H|H]
  | H : _ ∈ _ :: _ |- _ => apply elem_of_cons in H as [H|H]
  | H : _ ∈ [] |- _ => apply elem_of_nil in H; destruct H
  end.

Ltac elem_tac :=
  solve [ assumption
        | apply elem_of_cons; first [left; reflexivity | right; elem_tac]
        | apply elem_of_app; first [left; elem_tac | right; elem_tac] ].

(** [loadWholeAppIfNeeded] leaves the process state as it is and does not
    panic. It returns no program and no configuration when no analyzer
    needs the program, the program [loader.Config.Load] returned and its
    configuration when one does, and an error otherwise, no program being
    loaded then. *)
Lemma loadWholeAppIfNeeded_run linters cfg pkgProg w :
  exists o tl,
    loadWholeAppIfNeeded linters cfg pkgProg w = (o, w, tl)
    /\ (forall e, e ∈ tl -> ofLoadStage e)
    /\ match o with
       | Return (Some p, Some _) =>
           isFullImportNeeded linters = true
           /\ programLoaded tl p
           /\ (forall p', programLoaded tl p' -> p' = p)
       | Return (None, None) => isFullImportNeeded linters = false /\ tl = []
       | Return _ => False
       | Fail _ => isFullImportNeeded linters = true /\ forall p, ~ programLoaded tl p
       | Panic _ => False
       end.
Proof.
  unfold loadWholeAppIfNeeded.
  destruct (isFullImportNeeded linters) eqn:Hneeded; simpl.
  2: { eexists _, _. split; [reflexivity|]. split; [|done].
       intros e He. by apply elem_of_nil in He. }
  unfold defer, normalizePaths, bind, ask, call, check, emit, ret, fail.
  destruct (os_Getwd w) as [root|err]; simpl.
  2: { eexists _, _. split; [reflexivity|]. split.
       - intros e He. split_elem. by subst.
       - split; [done|]. intros p [conf Hp]. split_elem. discriminate. }
  match goal with
  | |- context [normalizePaths_loop root ?args []] =>
      destruct (normalizePaths_loop root args []) as [nLoaderArgs|err]; simpl
  end.
  2: { eexists _, _. split; [reflexivity|]. split.
       - intros e He. split_elem. by subst.
       - split; [done|]. intros p [conf Hp]. split_elem. discriminate. }
  match goal with
  | |- context [loader_FromArgs w ?c nLoaderArgs ?t] =>
      destruct (loader_FromArgs w c nLoaderArgs t) as [[rest|err] loadcfg]; simpl
  end.
  2: { eexists _, _. split; [reflexivity|]. split.
       - intros e He. split_elem; by subst.
       - split; [done|]. intros p [conf Hp]. split_elem; discriminate. }
  destruct (0 <? len rest)%nat; simpl.
  { eexists _, _. split; [reflexivity|]. split.
    - intros e He. split_elem; by subst.
    - split; [done|]. intros p [conf Hp]. split_elem; discriminate. }
  destruct (loader_Load w loadcfg) as [prog|err]; simpl.
  - eexists _, _. split; [reflexivity|]. split.
    + intros e He. split_elem; by subst.
    + split; [done|]. split.
      * exists loadcfg. elem_tac.
      * intros p' [conf Hp]. split_elem; try discriminate. by inversion Hp.
  - eexists _, _. split; [reflexivity|]. split.
    + intros e He. split_elem; by subst.
    + split; [done|]. intros p [conf Hp]. split_elem; discriminate.
Qed.

(** Every run of [LoadContext] is one of [LoadContextRun]. *)
Lemma LoadContext_runs linters cfg w :
  match LoadContext linters cfg w with
  | (o, w', tr) => LoadContextRun linters cfg w o w' tr
  end.
Proof.
  unfold LoadContext.
  destruct (discoverGoRoot_run w) as (od & t0 & Hd & Hnopanic & _).
  unfold bind at 1. unfold orFail. rewrite Hd.
  destruct od as [goroot|e|msg]; cbv beta iota;
    [|by constructor|by destruct (Hnopanic msg)].
  unfold bind at 1. unfold os_Setenv at 1. cbv beta iota.
  unfold bind at 1. unfold set_build_Default_GOROOT at 1. cbv beta iota zeta.
  simpl environ. simpl build_Default. fold (withGOROOT goroot w).
  change (([] ++ packages_StdExcludeDirRegexps) ++ config.SkipDirs (config.Run_ cfg))
    with (resolveSkipDirs cfg).
  fold (resolveArgs cfg).
  unfold bind at 1. unfold call at 1. cbv beta iota.
  destruct (packages_NewResolver (withGOROOT goroot w)
              (config.BuildTags (config.Run_ cfg)) (resolveSkipDirs cfg))
    as [r|e] eqn:Hnew.
  2: { unfold bind, check, fail. cbv beta iota. simpl. by eapply run_no_resolver. }
  unfold bind at 1. unfold check at 1, ret at 1. cbv beta iota.
  unfold bind at 1. unfold call at 1. cbv beta iota.
  destruct (Resolver_Resolve (withGOROOT goroot w) r (resolveArgs cfg))
    as [pkgProg|e] eqn:Hres.
  2: { unfold bind, check, fail. cbv beta iota. simpl. by eapply run_not_resolved. }
  unfold bind at 1. unfold check at 1, ret at 1. cbv beta iota.
  destruct (loadWholeAppIfNeeded_run linters (config.Run_ cfg) pkgProg
              (withGOROOT goroot w)) as (ol & tl & Hl & _ & Hshape).
  unfold bind at 1. rewrite Hl.
  destruct ol as [[prog loaderConfig]|e|msg]; cbv beta iota; [| |done].
  2: { simpl. by eapply run_not_loaded. }
  simpl fst. simpl snd. destruct prog as [prog|].
  - pose proof (run_program linters cfg w goroot t0 r pkgProg prog loaderConfig tl
                  _ Hd Hnew Hres Hl eq_refl) as Hrun.
    unfold ssaTrace, ssaOf in Hrun.
    unfold buildSSAProgram, defer, bind, call, check, emit, ret, fail, panic.
    destruct (isSSAReprNeeded linters); simpl;
      destruct (astcache_LoadFromProgram (withGOROOT goroot w) prog)
        as [astCache|e]; simpl in *;
      repeat match goal with
             | |- context [separateNotCompilingPackages ?c] =>
                 destruct (separateNotCompilingPackages c)
             end;
      simpl; rewrite <- ?app_assoc; simpl; rewrite ?app_nil_r; exact Hrun.
  - pose proof (run_files linters cfg w goroot t0 r pkgProg loaderConfig tl
                  _ Hd Hnew Hres Hl eq_refl) as Hrun.
    unfold bind, call, check, ret, fail.
    destruct (astcache_LoadFromFiles (withGOROOT goroot w)
                (packages.Program.Files pkgProg
                   (config.AnalyzeTests (config.Run_ cfg)))) as [astCache|e];
      simpl in *; rewrite <- ?app_assoc; simpl; rewrite ?app_nil_r; exact Hrun.
Qed.

Lemma discoverGoRoot_trace w o w' t0 :
  discoverGoRoot w = (o, w', t0) ->
  forall e, e ∈ t0 -> exists r, e = EvExec "go" ["env"; "GOROOT"] r.
Proof.
  intros Hd. destruct (discoverGoRoot_run w) as (o' & t0' & Hd' & _ & Ht0).
  rewrite Hd' in Hd. by inversion Hd; subst.
Qed.

Lemma loadWholeAppIfNeeded_program linters cfg pkgProg w prog loaderConfig w' tl :
  loadWholeAppIfNeeded linters cfg pkgProg w = (Return (Some prog, loaderConfig), w', tl) ->
  isFullImportNeeded linters = true
  /\ (forall e, e ∈ tl -> ofLoadStage e)
  /\ programLoaded tl prog
  /\ (forall p, programLoaded tl p -> p = prog)
  /\ is_Some loaderConfig.
Proof.
  intros Hl.
  destruct (loadWholeAppIfNeeded_run linters cfg pkgProg w) as (o & tl' & Hl' & Hev & Hshape).
  rewrite Hl' in Hl. inversion Hl; subst.
  destruct loaderConfig; [|done]. naive_solver.
Qed.

Lemma loadWholeAppIfNeeded_none linters cfg pkgProg w loaderConfig w' tl :
  loadWholeAppIfNeeded linters cfg pkgProg w = (Return (None, loaderConfig), w', tl) ->
  isFullImportNeeded linters = false /\ tl = [] /\ loaderConfig = None.
Proof.
  intros Hl.
  destruct (loadWholeAppIfNeeded_run linters cfg pkgProg w) as (o & tl' & Hl' & Hev & Hshape).
  rewrite Hl' in Hl. inversion Hl; subst.
  destruct loaderConfig; [done|]. naive_solver.
Qed.

Lemma loadWholeAppIfNeeded_fail linters cfg pkgProg w e w' tl :
  loadWholeAppIfNeeded linters cfg pkgProg w = (Fail e, w', tl) ->
  isFullImportNeeded linters = true
  /\ (forall e, e ∈ tl -> ofLoadStage e)
  /\ (forall p, ~ programLoaded tl p).
Proof.
  intros Hl.
  destruct (loadWholeAppIfNeeded_run linters cfg pkgProg w) as (o & tl' & Hl' & Hev & Hshape).
  rewrite Hl' in Hl. inversion Hl; subst. naive_solver.
Qed.

(** The context [separateNotCompilingPackages] returns keeps every field
    but the program and the side list, and still holds a program. *)
Lemma separateNotCompilingPackages_fields (lintCtx : linter.Context) :
  match separateNotCompilingPackages lintCtx with
  | Some lintCtx' =>
      is_Some (linter.Program lintCtx) /\ is_Some (linter.Program lintCtx')
      /\ linter.PkgProgram lintCtx' = linter.PkgProgram lintCtx
      /\ linter.Cfg lintCtx' = linter.Cfg lintCtx
      /\ linter.SSAProgram lintCtx' = linter.SSAProgram lintCtx
      /\ linter.LoaderConfig lintCtx' = linter.LoaderConfig lintCtx
      /\ linter.ASTCache lintCtx' = linter.ASTCache lintCtx
  | None => linter.Program lintCtx = None
  end.
Proof.
  unfold separateNotCompilingPackages.
  destruct (linter.Program lintCtx) as [prog|]; [|done].
  repeat case_match; simplify_eq; simpl; eauto 10.
Qed.

(** Events of a trace that is written out, by kind. *)
Ltac known_events :=
  repeat match goal with
  | Ht : forall e, e ∈ ?t -> exists r, e = EvExec _ _ r, H : _ ∈ ?t |- _ =>
      apply Ht in H as [? H]
  | Ht : forall e, e ∈ ?t -> ofLoadStage e, H : _ ∈ ?t |- _ =>
      lazymatch goal with
      | _ : ofLoadStage ?e' |- _ => fail
      | _ => pose proof (Ht _ H)
      end
  end.

Ltac events := split_elem; known_events; simplify_eq; simpl in *.

(** C3: when no analyzer declares that it needs program loading,
    [loadWholeAppIfNeeded] returns a nil program and a nil loader
    configuration without an error, leaves the process as it was and makes
    no call; in [LoadContext] no call of the Program Loader and no SSA call
    takes place, and the context it returns holds no program, no loader
    configuration and no SSA program. *)
Theorem loadWholeAppIfNeeded_skipped (linters : list linter.Config) :
  (forall l, l ∈ linters -> linter.NeedsProgramLoading l = false) ->
  (forall cfg pkgProg w,
      loadWholeAppIfNeeded linters cfg pkgProg w = (Return (None, None), w, []))
  /\ (forall cfg w,
        match LoadContext linters cfg w with
        | (o, _, tr) =>
            (forall e, e ∈ tr -> ~ isLoaderEvent e /\ ~ isSSAEvent e)
            /\ (forall ctx, o = Return ctx ->
                  linter.Program ctx = None
                  /\ linter.LoaderConfig ctx = None
                  /\ linter.SSAProgram ctx = None)
        end).
Proof.
  intros Hnone. apply isFullImportNeeded_false in Hnone. split.
  - intros. by apply loadWholeAppIfNeeded_false.
  - intros cfg w. pose proof (LoadContext_runs linters cfg w) as Hrun.
    destruct (LoadContext linters cfg w) as [[o w'] tr].
    destruct Hrun as [e t0 Hd|g t0 e Hd Hnew|g t0 r e Hd Hnew Hres
                      |g t0 r pkgProg e tl Hd Hnew Hres Hl
                      |g t0 r pkgProg lc tl rc Hd Hnew Hres Hl Hrc
                      |g t0 r pkgProg prog lc tl rc Hd Hnew Hres Hl Hrc];
      pose proof (discoverGoRoot_trace _ _ _ _ Hd) as Ht0;
      try (rewrite loadWholeAppIfNeeded_false in Hl by done; simplify_eq).
    + split; [|done]. intros e' He. events. tauto.
    + split; [|done]. intros e' He. events; tauto.
    + split; [|done]. intros e' He. events; tauto.
    + split.
      * intros e' He. events; tauto.
      * intros ctx Hctx. case_match; by simplify_eq.
Qed.



Ltac destruct_run Hrun :=
  destruct Hrun as [e t0 Hd|g t0 e Hd Hnew|g t0 r e Hd Hnew Hres
                    |g t0 r pkgProg e tl Hd Hnew Hres Hl
                    |g t0 r pkgProg lc tl rc Hd Hnew Hres Hl Hrc
                    |g t0 r pkgProg prog lc tl rc Hd Hnew Hres Hl Hrc];
  pose proof (discoverGoRoot_trace _ _ _ _ Hd) as Ht0;
  try (apply loadWholeAppIfNeeded_fail in Hl as (Hneeded & Htl & Hnoload));
  try (apply loadWholeAppIfNeeded_none in Hl as (Hneeded & -> & ->));
  try (apply loadWholeAppIfNeeded_program in Hl
         as (Hneeded & Htl & Hload & Honly & Hlc)).

(** No program is loaded on the paths that end before the loader or in
    it. *)
Ltac no_program :=
  let conf := fresh "conf" in
  let Hp := fresh "Hp" in
  intros [conf Hp]; events;
  match goal with
  | Hnoload : forall p, ~ programLoaded _ p, Hp : EvLoad ?c (Ok ?p) ∈ _ |- _ =>
      destruct (Hnoload p); by exists c
  end.

Ltac no_ssa :=
  let e := fresh "e" in
  let He := fresh "He" in
  let Hssa := fresh "Hssa" in
  intros (e & He & Hssa); events; try done;
  match goal with
  | Hl : ofLoadStage ?e, Hs : isSSAEvent ?e |- _ => by destruct e
  end.

(** C4: in [LoadContext] an SSA call takes place exactly when a program was
    loaded and at least one analyzer declares that it needs the SSA
    representation; the representation is then created from that program
    with [ssa.GlobalDebug] and built. So in a run where no analyzer declares
    the need, or where no program was loaded, the SSA representation is not
    built, and the context returned holds an SSA program exactly when it
    holds a program and some analyzer declares the need. *)
Theorem LoadContext_ssa_gate (linters : list linter.Config) (cfg : config.Config)
    (w : World) :
  match LoadContext linters cfg w with
  | (o, _, tr) =>
      ((exists e, e ∈ tr /\ isSSAEvent e) <->
         (exists prog, programLoaded tr prog)
         /\ (exists l, l ∈ linters /\ linter.NeedsSSARepresentation l = true))
      /\ (forall prog,
            programLoaded tr prog ->
            (exists l, l ∈ linters /\ linter.NeedsSSARepresentation l = true) ->
            EvCreateSSA prog ssa_GlobalDebug ∈ tr /\ EvBuildSSA ∈ tr)
      /\ (forall ctx, o = Return ctx ->
            (is_Some (linter.SSAProgram ctx) <->
               is_Some (linter.Program ctx)
               /\ (exists l, l ∈ linters /\ linter.NeedsSSARepresentation l = true)))
  end.
Proof.
  pose proof (isSSAReprNeeded_spec linters) as Hneed.
  pose proof (LoadContext_runs linters cfg w) as Hrun.
  destruct (LoadContext linters cfg w) as [[o w'] tr].
  destruct_run Hrun.
  - split; [|split; [|done]].
    + split; [no_ssa|]. intros [[p Hp] _]. revert Hp. no_program.
    + intros p Hp. revert Hp. no_program.
  - split; [|split; [|done]].
    + split; [no_ssa|]. intros [[p Hp] _]. revert Hp. no_program.
    + intros p Hp. revert Hp. no_program.
  - split; [|split; [|done]].
    + split; [no_ssa|]. intros [[p Hp] _]. revert Hp. no_program.
    + intros p Hp. revert Hp. no_program.
  - split; [|split; [|done]].
    + split; [no_ssa|]. intros [[p Hp] _]. revert Hp. no_program.
    + intros p Hp. revert Hp. no_program.
  - split; [|split].
    + split; [no_ssa|]. intros [[p [conf Hp]] _]. events.
    + intros p [conf Hp]. events.
    + intros ctx Hctx. case_match; simplify_eq. simpl.
      split; [by intros [? ?]|]. by intros [[? ?] _].
  - assert (forall p, programLoaded
              (t0 ++ EvSetenv "GOROOT" g :: EvSetBuildDefaultGOROOT g
                  :: EvNewResolver (config.BuildTags (config.Run_ cfg))
                       (resolveSkipDirs cfg) (Ok r)
                  :: EvResolve (resolveArgs cfg) (Ok pkgProg)
                  :: tl ++ ssaTrace linters prog ++ [EvLoadFromProgram prog rc]) p
              -> p = prog) as Hprog.
    { intros p [conf Hp]. unfold ssaTrace in Hp.
      destruct (isSSAReprNeeded linters); events.
      all: apply Honly; by exists conf. }
    split; [|split].
    + split.
      * intros (e & He & Hssa). split.
        -- exists prog. destruct Hload as [conf Hconf]. exists conf. elem_tac.
        -- apply Hneed. unfold ssaTrace in He.
           destruct (isSSAReprNeeded linters); [done|]. events; try done.
           by destruct e.
      * intros [_ Hl]. apply Hneed in Hl. exists EvBuildSSA. split; [|done].
        unfold ssaTrace. rewrite Hl. elem_tac.
    + intros p Hp Hl. apply Hprog in Hp as ->. apply Hneed in Hl.
      unfold ssaTrace. rewrite Hl. split; elem_tac.
    + intros ctx Hctx. destruct rc as [astCache|err]; [|done].
      match type of Hctx with
      | context [separateNotCompilingPackages ?c] =>
          pose proof (separateNotCompilingPackages_fields c) as Hfields
      end.
      destruct (separateNotCompilingPackages _) as [ctx'|]; [|done].
      simplify_eq. destruct Hfields as (_ & Hsome & _ & _ & Hssa & _).
      rewrite Hssa. simpl. rewrite <- Hneed. unfold ssaOf.
      destruct (isSSAReprNeeded linters); split; try done.
      by intros [_ ?].
Qed.

(** An event of the given shape is not on a path that never reaches it. *)
Ltac absent :=
  intros; unfold programLoaded in *;
  repeat match goal with
         | H : exists _, _ |- _ => destruct H
         | |- ~ _ => intro
         | |- _ ∉ _ => intro
         end;
  events; try done;
  try match goal with
      | Hnoload : forall p, ~ _, Hp : EvLoad ?c (Ok ?p) ∈ _ |- _ =>
          destruct (Hnoload p); by exists c
      end;
  try congruence.

(** C5: in [LoadContext] the parse cache is taken from the loaded program
    whenever a program was loaded, and parsed from the files of the resolved
    targets, chosen by the analyze-tests flag, exactly when there is no
    loaded program: a cache taken from a program is taken from the program
    that was loaded; once a program is loaded the cache is taken from it and
    no file is parsed; files are parsed only when no program is loaded, and
    they are the files of the resolved targets; when no analyzer needs the
    program and the targets resolve, the files are parsed; and the context
    returned holds the cache of the program when it holds a program, and
    the cache parsed from the files otherwise. *)
Theorem LoadContext_parse_cache (linters : list linter.Config)
    (cfg : config.Config) (w : World) :
  match LoadContext linters cfg w with
  | (o, _, tr) =>
      (forall prog rc, EvLoadFromProgram prog rc ∈ tr -> programLoaded tr prog)
      /\ (forall prog,
            programLoaded tr prog ->
            (exists rc, EvLoadFromProgram prog rc ∈ tr)
            /\ (forall files rc, EvLoadFromFiles files rc ∉ tr))
      /\ (forall files rc,
            EvLoadFromFiles files rc ∈ tr ->
            (forall prog, ~ programLoaded tr prog)
            /\ (exists pkgProg,
                  EvResolve (resolveArgs cfg) (Ok pkgProg) ∈ tr
                  /\ files = packages.Program.Files pkgProg
                               (config.AnalyzeTests (config.Run_ cfg))))
      /\ (forall args pkgProg,
            EvResolve args (Ok pkgProg) ∈ tr ->
            isFullImportNeeded linters = false ->
            exists rc,
              EvLoadFromFiles
                (packages.Program.Files pkgProg
                   (config.AnalyzeTests (config.Run_ cfg))) rc ∈ tr)
      /\ (forall ctx, o = Return ctx ->
            match linter.Program ctx with
            | Some _ =>
                exists prog,
                  programLoaded tr prog
                  /\ EvLoadFromProgram prog (Ok (linter.ASTCache ctx)) ∈ tr
            | None =>
                EvLoadFromFiles
                  (packages.Program.Files (linter.PkgProgram ctx)
                     (config.AnalyzeTests (config.Run_ cfg)))
                  (Ok (linter.ASTCache ctx)) ∈ tr
            end)
  end.
Proof.
  pose proof (LoadContext_runs linters cfg w) as Hrun.
  destruct (LoadContext linters cfg w) as [[o w'] tr].
  destruct_run Hrun.
  - repeat split; absent.
  - repeat split; absent.
  - repeat split; absent.
  - repeat split; absent.
  - split; [absent|]. split; [intros p [conf Hp]; absent|]. split; [|split].
    + intros files rc0 Hin. split; [intros p [conf Hp]; absent|].
      exists pkgProg. split; [elem_tac|]. by events.
    + intros args p Hin _. events. eexists. elem_tac.
    + intros ctx Hctx. case_match; simplify_eq. simpl. elem_tac.
  - assert (forall p conf, EvLoad conf (Ok p)
              ∈ t0 ++ EvSetenv "GOROOT" g :: EvSetBuildDefaultGOROOT g
                  :: EvNewResolver (config.BuildTags (config.Run_ cfg))
                       (resolveSkipDirs cfg) (Ok r)
                  :: EvResolve (resolveArgs cfg) (Ok pkgProg)
                  :: tl ++ ssaTrace linters prog ++ [EvLoadFromProgram prog rc]
              -> p = prog) as Hprog.
    { intros p conf Hp. unfold ssaTrace in Hp.
      destruct (isSSAReprNeeded linters); events.
      all: apply Honly; by exists conf. }
    assert (programLoaded
              (t0 ++ EvSetenv "GOROOT" g :: EvSetBuildDefaultGOROOT g
                  :: EvNewResolver (config.BuildTags (config.Run_ cfg))
                       (resolveSkipDirs cfg) (Ok r)
                  :: EvResolve (resolveArgs cfg) (Ok pkgProg)
                  :: tl ++ ssaTrace linters prog ++ [EvLoadFromProgram prog rc])
              prog) as Hloaded.
    { destruct Hload as [conf Hconf]. exists conf. elem_tac. }
    assert (forall files rc0, EvLoadFromFiles files rc0
              ∉ t0 ++ EvSetenv "GOROOT" g :: EvSetBuildDefaultGOROOT g
                  :: EvNewResolver (config.BuildTags (config.Run_ cfg))
                       (resolveSkipDirs cfg) (Ok r)
                  :: EvResolve (resolveArgs cfg) (Ok pkgProg)
                  :: tl ++ ssaTrace linters prog ++ [EvLoadFromProgram prog rc])
      as Hnofiles.
    { intros files rc0 Hin. unfold ssaTrace in Hin.
      destruct (isSSAReprNeeded linters); events; done. }
    split; [|split; [|split; [|split]]].
    + intros p rc0 Hin. unfold ssaTrace in Hin.
      destruct (isSSAReprNeeded linters); events; done.
    + intros p [conf Hp]. apply Hprog in Hp as ->. split; [|done].
      exists rc. elem_tac.
    + intros files rc0 Hin. by apply Hnofiles in Hin.
    + intros args p _ Hf. congruence.
    + intros ctx Hctx. destruct rc as [astCache|err]; [|done].
      match type of Hctx with
      | context [separateNotCompilingPackages ?c] =>
          pose proof (separateNotCompilingPackages_fields c) as Hfields
      end.
      destruct (separateNotCompilingPackages _) as [ctx'|]; [|done].
      simplify_eq. destruct Hfields as (_ & [p' Hsome] & _ & _ & _ & _ & Hcache).
      rewrite Hsome, Hcache. simpl. exists prog. split; [done|]. elem_tac.
Qed.

(** ** More on LoadContext *)

(** X1: [LoadContext] never panics: the nil dereference in
    [separateNotCompilingPackages] is out of reach, as the function is only
    called on a context that holds a program. *)
Theorem LoadContext_never_panics (linters : list linter.Config)
    (cfg : config.Config) (w : World) :
  match LoadContext linters cfg w with
  | (Panic _, _, _) => False
  | (Return ctx, _, _) => True
  | (Fail e, _, _) => True
  end.
Proof.
  pose proof (LoadContext_runs linters cfg w) as Hrun.
  destruct (LoadContext linters cfg w) as [[o w'] tr].
  destruct_run Hrun; try done.
  - by destruct rc.
  - destruct rc as [astCache|err]; [|done].
    match goal with
    | |- context [separateNotCompilingPackages ?c] =>
        pose proof (separateNotCompilingPackages_fields c) as Hfields
    end.
    by destruct (separateNotCompilingPackages _).
Qed.

Lemma withGOROOT_other goroot w key :
  key <> "GOROOT" -> os_Getenv key (withGOROOT goroot w) = os_Getenv key w.
Proof.
  intros Hkey. unfold os_Getenv, withGOROOT. simpl.
  by rewrite lookup_insert_ne.
Qed.


(** The process state [LoadContext] leaves: the one it found, or that one
    with [GOROOT] established. *)
Lemma LoadContext_world linters cfg w :
  match LoadContext linters cfg w with
  | (_, w', tr) =>
      (w' = w /\ forall e, e ∈ tr -> exists r, e = EvExec "go" ["env"; "GOROOT"] r)
      \/ exists goroot w0 t0,
           discoverGoRoot w = (Return goroot, w0, t0) /\ w' = withGOROOT goroot w
  end.
Proof.
  pose proof (LoadContext_runs linters cfg w) as Hrun.
  destruct (LoadContext linters cfg w) as [[o w'] tr].
  destruct Hrun; eauto 10 using discoverGoRoot_trace.
Qed.

(** X2: of the process state, [LoadContext] touches the variable [GOROOT]
    and the field [build.Default.GOROOT] only: every other environment
    variable reads as before, and so do the build tags of
    [build.Default]. *)
Theorem LoadContext_keeps_environment (linters : list linter.Config)
    (cfg : config.Config) (w : World) :
  match LoadContext linters cfg w with
  | (_, w', _) =>
      (forall key, key <> "GOROOT" -> os_Getenv key w' = os_Getenv key w)
      /\ build.BuildTags (build_Default w') = build.BuildTags (build_Default w)
  end.
Proof.
  pose proof (LoadContext_world linters cfg w) as Hw.
  destruct (LoadContext linters cfg w) as [[o w'] tr].
  destruct Hw as [[-> _]|(goroot & w0 & t0 & _ & ->)]; [done|].
  split; [|done]. intros key Hkey. by apply withGOROOT_other.
Qed.


(** X4: what [LoadContext] asks of the resolver. A resolver is made from the
    build tags of the configuration and from the standard directories to
    skip followed by those of the configuration; it resolves the arguments
    of the configuration, or [./...] when there are none. *)
Theorem LoadContext_resolver_arguments (linters : list linter.Config)
    (cfg : config.Config) (w : World) :
  match LoadContext linters cfg w with
  | (_, _, tr) =>
      (forall tags skipDirs r,
          EvNewResolver tags skipDirs r ∈ tr ->
          tags = config.BuildTags (config.Run_ cfg)
          /\ skipDirs = packages_StdExcludeDirRegexps
                        ++ config.SkipDirs (config.Run_ cfg))
      /\ (forall args r,
            EvResolve args r ∈ tr ->
            (config.Args (config.Run_ cfg) = [] -> args = ["./..."])
            /\ (config.Args (config.Run_ cfg) <> [] ->
                args = config.Args (config.Run_ cfg)))
  end.
Proof.
  assert ((config.Args (config.Run_ cfg) = [] -> resolveArgs cfg = ["./..."])
          /\ (config.Args (config.Run_ cfg) <> [] ->
              resolveArgs cfg = config.Args (config.Run_ cfg))) as Hargs.
  { unfold resolveArgs, len. destruct (config.Args (config.Run_ cfg)); done. }
  pose proof (LoadContext_runs linters cfg w) as Hrun.
  destruct (LoadContext linters cfg w) as [[o w'] tr].
  destruct_run Hrun; (split; [intros tags skipDirs r'|intros args r']);
    intros Hin; unfold ssaTrace in *; repeat case_match; events; done.
Qed.

(** As [events], with what is known of every event of the load stage. *)
Ltac load_stage_events :=
  split_elem;
  repeat match goal with
  | Ht : forall e, e ∈ ?t -> exists r, e = EvExec _ _ r, H : _ ∈ ?t |- _ =>
      apply Ht in H as [? H]
  | Ht : forall e, e ∈ ?t -> ofLoadStage e, H : ?e ∈ ?t |- _ =>
      lazymatch goal with
      | _ : ofLoadStage e |- _ => fail
      | _ => pose proof (Ht _ H)
      end
  end;
  simplify_eq; simpl in *.

(** X5: an error of the resolver or of the parse cache is the error
    [LoadContext] returns, as it is. When making the resolver or resolving
    fails, nothing is loaded, built or parsed. *)
Theorem LoadContext_resolver_and_cache_errors (linters : list linter.Config)
    (cfg : config.Config) (w : World) :
  match LoadContext linters cfg w with
  | (o, _, tr) =>
      (forall e,
          (exists tags skipDirs, EvNewResolver tags skipDirs (Err e) ∈ tr)
          \/ (exists args, EvResolve args (Err e) ∈ tr) ->
          o = Fail e
          /\ forall ev, ev ∈ tr ->
               ~ isLoaderEvent ev /\ ~ isSSAEvent ev /\ ~ isCacheEvent ev)
      /\ (forall e,
            (exists prog, EvLoadFromProgram prog (Err e) ∈ tr)
            \/ (exists files, EvLoadFromFiles files (Err e) ∈ tr) ->
            o = Fail e)
  end.
Proof.
  pose proof (LoadContext_runs linters cfg w) as Hrun.
  destruct (LoadContext linters cfg w) as [[o w'] tr].
  destruct_run Hrun; split; intros e0 Hin;
    try (split; [|intros ev Hev]);
    destruct Hin as [Hin|Hin];
    repeat match goal with H : exists _, _ |- _ => destruct H end;
    unfold ssaTrace in *; repeat case_match; load_stage_events; try done;
    try tauto; by destruct ev.
Qed.

(** ** More on loadWholeAppIfNeeded *)

(** The run of [loadWholeAppIfNeeded] when some analyzer needs the program,
    written out. *)
Lemma loadWholeAppIfNeeded_needed linters cfg pkgProg w :
  isFullImportNeeded linters = true ->
  loadWholeAppIfNeeded linters cfg pkgProg w =
    let loaderArgs :=
      if negb (len (packages.Program.Dirs pkgProg) =? 0)%nat
      then packages.Program.Dirs pkgProg
      else packages.Program.Files pkgProg (config.AnalyzeTests cfg) in
    let log := EvLogInfo "Program loading took %s" in
    match os_Getwd w with
    | Err e => (Fail ("can't get working dir: " +:+ e), w, [log])
    | Ok root =>
        match normalizePaths_loop root loaderArgs [] with
        | Err e => (Fail e, w, [log])
        | Ok nLoaderArgs =>
            let r := loader_FromArgs w
                       {| loader.Build := packages.Program.BuildContext pkgProg;
                          loader.AllowErrors := true;
                          loader.ParserMode := parser_ParseComments;
                          loader.CreatePkgs := [];
                          loader.ImportPkgs := ∅ |}
                       nLoaderArgs (config.AnalyzeTests cfg) in
            let fromArgs := EvFromArgs nLoaderArgs (config.AnalyzeTests cfg) r.1 in
            match r.1 with
            | Err e =>
                (Fail ("can't parepare load config with paths: " +:+ e), w,
                 [fromArgs; log])
            | Ok rest =>
                if (0 <? len rest)%nat
                then (Fail ("unhandled loading paths: " +:+ fmt_v rest), w,
                      [fromArgs; log])
                else
                  match loader_Load w r.2 with
                  | Err e =>
                      (Fail ("can't load program from paths "
                             +:+ fmt_v loaderArgs +:+ ": " +:+ e), w,
                       [fromArgs; EvLoad r.2 (Err e); log])
                  | Ok prog =>
                      (Return (Some prog, Some r.2), w,
                       [fromArgs; EvLoad r.2 (Ok prog); log])
                  end
            end
        end
    end.
Proof.
  intros Hneeded. unfold loadWholeAppIfNeeded. rewrite Hneeded. simpl.
  unfold defer, normalizePaths, bind, ask, call, check, emit, ret, fail.
  destruct (os_Getwd w) as [root|err]; simpl; [|done].
  destruct (normalizePaths_loop root _ []) as [nLoaderArgs|err]; simpl; [|done].
  destruct (loader_FromArgs w _ nLoaderArgs _) as [[rest|err] loadcfg]; simpl; [|done].
  destruct (0 <? len rest)%nat; simpl; [done|].
  by destruct (loader_Load w loadcfg).
Qed.

(** X6: when some analyzer needs the program, [loadWholeAppIfNeeded] logs
    the loading time exactly once, as the last thing it does, whether it
    returns a program or an error; it leaves the process state as it is and
    does not panic. *)
Theorem loadWholeAppIfNeeded_logs_last (linters : list linter.Config)
    (cfg : config.Run) (pkgProg : packages.Program.t) (w : World) :
  (exists l, l ∈ linters /\ linter.NeedsProgramLoading l = true) ->
  match loadWholeAppIfNeeded linters cfg pkgProg w with
  | (o, w', tl) =>
      w' = w
      /\ (forall msg, o <> Panic msg)
      /\ exists body,
           tl = body ++ [EvLogInfo "Program loading took %s"]
           /\ forall format, EvLogInfo format ∉ body
  end.
Proof.
  intros Hneeded. apply isFullImportNeeded_spec in Hneeded.
  rewrite (loadWholeAppIfNeeded_needed _ _ _ _ Hneeded). simpl.
  assert (forall A (o : outcome A) body,
            (forall msg, o <> Panic msg) ->
            (forall format, EvLogInfo format ∉ body) ->
            match (o, w, body ++ [EvLogInfo "Program loading took %s"]) with
            | (o, w', tl) =>
                w' = w /\ (forall msg, o <> Panic msg)
                /\ exists body,
                     tl = body ++ [EvLogInfo "Program loading took %s"]
                     /\ forall format, EvLogInfo format ∉ body
            end) as Hshape by (intros; eauto 10).
  destruct (os_Getwd w) as [root|err];
    [|by apply (Hshape _ _ []); [|intros f Hin; split_elem]].
  destruct (normalizePaths_loop root _ []) as [nLoaderArgs|err];
    [|by apply (Hshape _ _ []); [|intros f Hin; split_elem]].
  destruct (loader_FromArgs w _ nLoaderArgs _) as [[rest|err] loadcfg]; simpl;
    [|by apply (Hshape _ _ [_]); [|intros f Hin; split_elem]].
  destruct (0 <? len rest)%nat;
    [by apply (Hshape _ _ [_]); [|intros f Hin; split_elem]|].
  destruct (loader_Load w loadcfg) as [prog|err];
    by apply (Hshape _ _ [_; _]); [|intros f Hin; split_elem].
Qed.

(** X7: [loadWholeAppIfNeeded] calls [Load] only after [FromArgs] took all
    the paths, and returns what the loader says. When [FromArgs] fails or
    leaves paths over, the error tells so and [Load] is not called; when
    [Load] fails, the error names the paths as they were before they were
    normalized; when [Load] returns a program, the program is returned with
    the configuration it was loaded from. *)
Theorem loadWholeAppIfNeeded_load_guard (linters : list linter.Config)
    (cfg : config.Run) (pkgProg : packages.Program.t) (w : World) :
  match loadWholeAppIfNeeded linters cfg pkgProg w with
  | (o, _, tl) =>
      (forall conf r,
          EvLoad conf r ∈ tl ->
          exists args, EvFromArgs args (config.AnalyzeTests cfg) (Ok []) ∈ tl)
      /\ (forall args tests e,
            EvFromArgs args tests (Err e) ∈ tl ->
            o = Fail ("can't parepare load config with paths: " +:+ e)
            /\ forall conf r, EvLoad conf r ∉ tl)
      /\ (forall args tests rest,
            EvFromArgs args tests (Ok rest) ∈ tl -> rest <> [] ->
            o = Fail ("unhandled loading paths: " +:+ fmt_v rest)
            /\ forall conf r, EvLoad conf r ∉ tl)
      /\ (forall conf e,
            EvLoad conf (Err e) ∈ tl ->
            o = Fail ("can't load program from paths "
                      +:+ fmt_v (if negb (len (packages.Program.Dirs pkgProg) =? 0)%nat
                                 then packages.Program.Dirs pkgProg
                                 else packages.Program.Files pkgProg
                                        (config.AnalyzeTests cfg))
                      +:+ ": " +:+ e))
      /\ (forall conf prog,
            EvLoad conf (Ok prog) ∈ tl -> o = Return (Some prog, Some conf))
  end.
Proof.
  destruct (isFullImportNeeded linters) eqn:Hneeded.
  2: { rewrite (loadWholeAppIfNeeded_false _ _ _ _ Hneeded).
       repeat split; intros; split_elem. }
  rewrite (loadWholeAppIfNeeded_needed _ _ _ _ Hneeded). simpl.
  destruct (os_Getwd w) as [root|err];
    [|repeat split; intros; split_elem; simplify_eq].
  destruct (normalizePaths_loop root _ []) as [nLoaderArgs|err];
    [|repeat split; intros; split_elem; simplify_eq].
  destruct (loader_FromArgs w _ nLoaderArgs _) as [[rest|err] loadcfg] eqn:Hfrom;
    simpl.
  2: { repeat split; intros; try intros Hin; split_elem; by simplify_eq. }
  destruct rest as [|p rest]; simpl.
  2: { repeat split; intros; try intros Hin; split_elem; by simplify_eq. }
  destruct (loader_Load w loadcfg) as [prog|err].
  - repeat split; intros; try intros Hin; split_elem; simplify_eq; try done.
    eexists. elem_tac.
  - repeat split; intros; try intros Hin; split_elem; simplify_eq; try done.
    eexists. elem_tac.
Qed.

(** X8: directories go before files. [FromArgs] is called on the
    directories of the resolved targets when there is one, and on their
    files, chosen by the analyze-tests flag, only when there is none; it
    gets them normalized under the working directory, one path for each in
    their order, together with the analyze-tests flag. *)
Theorem loadWholeAppIfNeeded_from_args (linters : list linter.Config)
    (cfg : config.Run) (pkgProg : packages.Program.t) (w : World) :
  match loadWholeAppIfNeeded linters cfg pkgProg w with
  | (_, _, tl) =>
      forall args tests r,
        EvFromArgs args tests r ∈ tl ->
        tests = config.AnalyzeTests cfg
        /\ exists root,
             os_Getwd w = Ok root
             /\ (packages.Program.Dirs pkgProg <> [] ->
                 Forall2 (normalized root) (packages.Program.Dirs pkgProg) args)
             /\ (packages.Program.Dirs pkgProg = [] ->
                 Forall2 (normalized root)
                   (packages.Program.Files pkgProg (config.AnalyzeTests cfg)) args)
  end.
Proof.
  destruct (isFullImportNeeded linters) eqn:Hneeded.
  2: { rewrite (loadWholeAppIfNeeded_false _ _ _ _ Hneeded).
       intros; split_elem. }
  rewrite (loadWholeAppIfNeeded_needed _ _ _ _ Hneeded). simpl.
  destruct (os_Getwd w) as [root|err]; [|intros; split_elem; simplify_eq].
  destruct (normalizePaths_loop root _ []) as [nLoaderArgs|err] eqn:Hloop;
    [|intros; split_elem; simplify_eq].
  apply normalizePaths_loop_ok in Hloop as (outs & -> & Houts). simpl in *.
  assert (packages.Program.Dirs pkgProg <> [] ->
          Forall2 (normalized root) (packages.Program.Dirs pkgProg) outs) as Hdirs.
  { intros Hne. unfold len in Houts.
    by destruct (packages.Program.Dirs pkgProg). }
  assert (packages.Program.Dirs pkgProg = [] ->
          Forall2 (normalized root)
            (packages.Program.Files pkgProg (config.AnalyzeTests cfg)) outs) as Hfiles.
  { intros Heq. by rewrite Heq in Houts. }
  destruct (loader_FromArgs w _ outs _) as [[rest|err] loadcfg]; simpl.
  2: { intros args tests r Hin. split_elem; simplify_eq. eauto. }
  destruct (0 <? len rest)%nat.
  { intros args tests r Hin. split_elem; simplify_eq. eauto. }
  destruct (loader_Load w loadcfg) as [prog|err];
    intros args tests r Hin; split_elem; simplify_eq; eauto.
Qed.

(** X9: the context [LoadContext] returns is partitioned. It carries the
    configuration it was given and the targets the resolver returned; every
    package left in its program is free of compile errors, every package of
    its side list carries one, and the side list holds exactly the packages
    with errors of the program that was loaded. The range over the imported
    map is assumed to come by every key, as Go's does. *)
Theorem LoadContext_partitioned (linters : list linter.Config)
    (cfg : config.Config) (w : World) :
  (forall m, rangeVisitsAll m) ->
  match LoadContext linters cfg w with
  | (o, _, tr) =>
      forall ctx, o = Return ctx ->
        linter.Cfg ctx = cfg
        /\ (exists args, EvResolve args (Ok (linter.PkgProgram ctx)) ∈ tr)
        /\ Forall (fun info => ~ compiles info) (linter.NotCompilingPackages ctx)
        /\ (forall prog', linter.Program ctx = Some prog' ->
              forall info, loaded prog' info -> compiles info)
        /\ (forall prog, programLoaded tr prog ->
              forall info,
                info ∈ linter.NotCompilingPackages ctx
                <-> loaded prog info /\ ~ compiles info)
  end.
Proof.
  intros Hrange.
  pose proof (LoadContext_runs linters cfg w) as Hrun.
  destruct (LoadContext linters cfg w) as [[o w'] tr].
  destruct_run Hrun; try done.
  - intros ctx Hctx. case_match; simplify_eq. simpl.
    split; [done|]. split; [eexists; elem_tac|]. split; [done|].
    split; [done|]. intros p [conf Hp]. events.
  - intros ctx Hctx. destruct rc as [astCache|err]; [|done].
    match type of Hctx with
    | context [separateNotCompilingPackages ?c] =>
        pose proof (separateNotCompilingPackages_fields c) as Hfields;
        destruct (separateNotCompilingPackages_run c prog eq_refl)
          as (lintCtx' & prog' & addedI & Hsep & Hprog' & Hside & Hcreated
              & Hsub & Hkeep & Hgone & Hperm & Hadded)
    end.
    rewrite Hsep in Hctx, Hfields. simplify_eq. simpl in *.
    destruct Hfields as (_ & _ & Hpkg & Hcfg & _).
    assert (forall k info, importedOf prog' !! k = Some info -> compiles info) as Hleft.
    { intros k info Hk. destruct (decide (compiles info)) as [|Herr]; [done|].
      pose proof (Hsub _ _ Hk) as Hk0.
      rewrite (Hgone k info Hk0 Herr) in Hk; [done|].
      apply Hrange. by rewrite Hk0. }
    assert (forall info, info ∈ addedI <-> inImported prog info /\ ~ compiles info)
      as HaddedI.
    { intros info. split.
      - intros Hin. split; [|by rewrite Forall_forall in Hadded; apply Hadded].
        assert (info ∈ importedList prog) as Hin0
          by (rewrite Hperm; apply elem_of_app; by right).
        unfold importedList in Hin0.
        apply list_elem_of_fmap in Hin0 as ([k i'] & -> & Hin0).
        apply elem_of_map_to_list in Hin0. by exists k.
      - intros [[k Hk] Herr].
        assert (info ∈ importedList prog) as Hin.
        { unfold importedList. apply list_elem_of_fmap. exists (k, info).
          split; [done|]. by apply elem_of_map_to_list. }
        rewrite Hperm in Hin. apply elem_of_app in Hin as [Hin|Hin]; [|done].
        unfold importedList in Hin.
        apply list_elem_of_fmap in Hin as ([k' i'] & -> & Hin).
        apply elem_of_map_to_list in Hin. destruct Herr. by apply (Hleft k'). }
    split; [done|]. split; [rewrite Hpkg; eexists; elem_tac|]. split; [|split].
    + rewrite Hside. simpl. apply Forall_app. split; [|done].
      apply Forall_forall. intros info Hin. apply list_elem_of_filter in Hin. tauto.
    + intros p Hp info [Hin|[k Hk]]; simplify_eq.
      * rewrite Hcreated in Hin. apply list_elem_of_filter in Hin. tauto.
      * by apply (Hleft k).
    + intros p [conf Hp] info.
      assert (p = prog) as ->.
      { unfold ssaTrace in Hp. destruct (isSSAReprNeeded linters); events.
        all: apply Honly; by exists conf. }
      rewrite Hside. simpl. rewrite elem_of_app, list_elem_of_filter, HaddedI.
      unfold loaded. tauto.
Qed.

End Load.

(** * Further properties *)

Section MoreNormalizePaths.
Context `{Extern}.

Lemma normalizePaths_loop_relative root paths ret0 :
  (forall p, p ∈ paths -> filepath_IsAbs p = false) ->
  normalizePaths_loop root paths ret0 = Ok (ret0 ++ map (fun p => "./" +:+ p) paths).
Proof.
  revert ret0. induction paths as [|p rest IH]; simpl; intros ret0 Hrel.
  - by rewrite app_nil_r.
  - rewrite (Hrel p) by left. rewrite IH.
    + by rewrite <- app_assoc.
    + intros q Hq. apply Hrel. by right.
Qed.

Lemma normalizePaths_loop_first_error root pre p post e ret0 :
  (forall q, q ∈ pre -> filepath_IsAbs q = true ->
     exists relPath, filepath_Rel root q = Ok relPath) ->
  filepath_IsAbs p = true ->
  filepath_Rel root p = Err e ->
  normalizePaths_loop root (pre ++ p :: post) ret0
  = Err ("can't get relative path for path " +:+ p +:+ " and root "
         +:+ root +:+ ": " +:+ e).
Proof.
  revert ret0. induction pre as [|q pre IH]; simpl; intros ret0 Hpre Habs Hrel.
  - by rewrite Habs, Hrel.
  - destruct (filepath_IsAbs q) eqn:Hq.
    + destruct (Hpre q) as [relPath ->]; [left|done|].
      apply IH; [|done|done]. intros q' Hq'. apply Hpre. by right.
    + apply IH; [|done|done]. intros q' Hq'. apply Hpre. by right.
Qed.

(** X10: the errors of [normalizePaths]. When the working directory cannot
    be determined, the error says so whatever the paths are, even when there
    is none. Otherwise the error is about the first absolute path that
    cannot be made relative: it names that path, the working directory and
    the reason, and the paths after it are not looked at. *)
Theorem normalizePaths_errors (paths : list string) (w : World) :
  (forall e,
      os_Getwd w = Err e ->
      normalizePaths paths w = (Fail ("can't get working dir: " +:+ e), w, []))
  /\ (forall root pre p post e,
        os_Getwd w = Ok root ->
        paths = pre ++ p :: post ->
        (forall q, q ∈ pre -> filepath_IsAbs q = true ->
           exists relPath, filepath_Rel root q = Ok relPath) ->
        filepath_IsAbs p = true ->
        filepath_Rel root p = Err e ->
        normalizePaths paths w
        = (Fail ("can't get relative path for path " +:+ p +:+ " and root "
                 +:+ root +:+ ": " +:+ e), w, [])).
Proof.
  split.
  - intros e Hwd. unfold normalizePaths, bind, ask, check, ret, fail.
    by rewrite Hwd.
  - intros root pre p post e Hwd -> Hpre Habs Hrel.
    unfold normalizePaths, bind, ask, check, ret, fail. rewrite Hwd. simpl.
    by rewrite (normalizePaths_loop_first_error _ _ _ _ e [] Hpre Habs Hrel).
Qed.

(** X11: on paths that are all relative, [normalizePaths] cannot fail once
    the working directory is known: it returns every path with [./] put in
    front, in the same order, and [filepath.Rel] has no say. *)
Theorem normalizePaths_relative (paths : list string) (w : World) root :
  os_Getwd w = Ok root ->
  (forall p, p ∈ paths -> filepath_IsAbs p = false) ->
  normalizePaths paths w = (Return (map (fun p => "./" +:+ p) paths), w, []).
Proof.
  intros Hwd Hrel. unfold normalizePaths, bind, ask, check, ret, fail.
  rewrite Hwd. simpl. by rewrite (normalizePaths_loop_relative _ _ [] Hrel).
Qed.

End MoreNormalizePaths.

Section MorePartition.
Context `{Extern}.

Lemma filter_all {A} (P : A -> Prop) `{!forall x, Decision (P x)} (l : list A) :
  Forall P l -> filter P l = l.
Proof.
  induction 1 as [|x l Hx Hl IH]; [done|].
  rewrite filter_cons_True by done. by rewrite IH.
Qed.

Lemma filter_none {A} (P : A -> Prop) `{!forall x, Decision (P x)} (l : list A) :
  Forall (fun x => ~ P x) l -> filter P l = [].
Proof.
  induction 1 as [|x l Hx Hl IH]; [done|].
  by rewrite filter_cons_False.
Qed.

Lemma separateImported_compiling order (m : gmap string loader.PackageInfo)
    notCompiling :
  (forall k info, m !! k = Some info -> compiles info) ->
  separateImported order m notCompiling = (m, notCompiling).
Proof.
  intros Hall. induction order as [|k rest IH]; simpl; [done|].
  destruct (m !! k) as [info|] eqn:Hk; [|done].
  apply Hall in Hk. apply hasErrors_false in Hk. by rewrite Hk.
Qed.

(** A context whose program holds no package with errors is left as it
    is. *)
Lemma separateNotCompilingPackages_compiling (lintCtx : linter.Context) prog :
  linter.Program lintCtx = Some prog ->
  (forall info, loaded prog info -> compiles info) ->
  separateNotCompilingPackages lintCtx = Some lintCtx.
Proof.
  intros Hprog Hall. unfold separateNotCompilingPackages. rewrite Hprog.
  destruct lintCtx as [pkgProg cfg program ssaProg loaderConfig astCache side].
  destruct prog as [created imported]. simpl in *. subst program.
  assert (forall l, created = Some l -> Forall compiles l) as Hcreated.
  { intros l ->. apply Forall_forall. intros info Hin. apply Hall. by left. }
  assert (forall m, imported = Some m ->
            forall k info, m !! k = Some info -> compiles info) as Himported.
  { intros m -> k info Hk. apply Hall. right. by exists k. }
  destruct created as [created|]; destruct imported as [imported|]; simpl;
    rewrite ?separateCreated_spec; simpl;
    rewrite ?(filter_all compiles created) by eauto;
    rewrite ?(filter_none (fun i => ~ compiles i) created)
      by (eapply Forall_impl; [by eauto|]; simpl; tauto);
    rewrite ?app_nil_r;
    rewrite ?(separateImported_compiling _ imported) by eauto; done.
Qed.

(** [separateNotCompilingPackages] panics, on a nil dereference,
    exactly when the context holds no program. *)
Theorem separateNotCompilingPackages_nil_program (lintCtx : linter.Context) :
  separateNotCompilingPackages lintCtx = None <-> linter.Program lintCtx = None.
Proof.
  pose proof (separateNotCompilingPackages_fields lintCtx) as Hfields.
  destruct (separateNotCompilingPackages lintCtx) as [lintCtx'|].
  - destruct Hfields as ([prog Hprog] & _). rewrite Hprog. done.
  - done.
Qed.

(** X12: a context whose program holds no package with a compile error is
    left exactly as it is, whatever the order of the range over the map:
    nothing moves to the side list, and a nil created list or imported map
    stays nil. *)
Theorem separateNotCompilingPackages_clean (lintCtx : linter.Context) prog :
  linter.Program lintCtx = Some prog ->
  (forall info, loaded prog info -> compiles info) ->
  separateNotCompilingPackages lintCtx = Some lintCtx.
Proof. apply separateNotCompilingPackages_compiling. Qed.

(** X13: [separateNotCompilingPackages] is idempotent: run again on the
    context it returned, it returns that context unchanged. *)
Theorem separateNotCompilingPackages_idempotent (lintCtx lintCtx' : linter.Context) prog :
  linter.Program lintCtx = Some prog ->
  rangeVisitsAll (importedOf prog) ->
  separateNotCompilingPackages lintCtx = Some lintCtx' ->
  separateNotCompilingPackages lintCtx' = Some lintCtx'.
Proof.
  intros Hprog Hrange Hrun.
  destruct (separateNotCompilingPackages_run lintCtx prog Hprog)
    as (lintCtx2 & prog' & addedI & Hrun2 & Hprog' & Hside & Hcreated
        & Hsub & Hkeep & Hgone & Hperm & Hadded).
  rewrite Hrun in Hrun2. simplify_eq.
  apply (separateNotCompilingPackages_compiling _ prog' Hprog').
  intros info [Hin|[k Hk]].
  - rewrite Hcreated in Hin. apply list_elem_of_filter in Hin. tauto.
  - destruct (decide (compiles info)) as [|Herr]; [done|].
    pose proof (Hsub _ _ Hk) as Hk0.
    rewrite (Hgone k info Hk0 Herr) in Hk; [done|].
    apply Hrange. by rewrite Hk0.
Qed.


End MorePartition.

Section MoreGovet.
Context `{Extern}.

Lemma Run_loop_ok pkgs tests shadow acc :
  (forall q, q ∈ pkgs ->
     exists issues, govetAPI_Run (packages.Package.Files q tests) shadow = Ok issues) ->
  Govet.Run_loop pkgs tests shadow acc = Ok (acc ++ vetIssues pkgs tests shadow).
Proof.
  revert acc. induction pkgs as [|q pkgs IH]; simpl; intros acc Hall.
  - by rewrite app_nil_r.
  - unfold vetIssues. simpl.
    destruct (Hall q) as [issues ->]; [left|].
    rewrite IH by (intros q' Hq'; apply Hall; by right).
    by rewrite <- app_assoc.
Qed.

Lemma Run_convert_spec govetIssues res :
  Govet.Run_convert govetIssues res = res ++ map toIssue govetIssues.
Proof.
  revert res. induction govetIssues as [|i rest IH]; simpl; intros res.
  - by rewrite app_nil_r.
  - rewrite IH. by rewrite <- app_assoc.
Qed.

(** X15: when govet passes on every package, [Govet.Run] returns no error
    and, unless there is no issue at all, one finding for each govet issue:
    the issues of the first package first, in govet's order, each with its
    position and message unchanged and [govet] as the linter it comes
    from. *)
Theorem Govet_Run_findings (lintCtx : linter.Context) :
  let tests := config.AnalyzeTests (config.Run_ (linter.Cfg lintCtx)) in
  let shadow := config.CheckShadowing (config.Govet (linter.Settings lintCtx)) in
  let pkgs := packages.Program.Packages (linter.PkgProgram lintCtx) in
  (forall pkg, pkg ∈ pkgs ->
     exists issues, govetAPI_Run (packages.Package.Files pkg tests) shadow = Ok issues) ->
  Govet.Run lintCtx =
    (match vetIssues pkgs tests shadow with
     | [] => None
     | issues => Some (map toIssue issues)
     end, None).
Proof.
  intros tests shadow pkgs Hall. unfold Govet.Run. fold tests shadow pkgs.
  rewrite (Run_loop_ok _ _ _ [] Hall). simpl.
  destruct (vetIssues pkgs tests shadow) as [|i rest]; [done|].
  simpl. by rewrite Run_convert_spec.
Qed.

(** X16: what [Govet.Run] never returns: findings together with an error,
    or an empty list of findings that is not nil. A list of findings it
    returns names govet on every entry. *)
Theorem Govet_Run_shape (lintCtx : linter.Context) :
  match Govet.Run lintCtx with
  | (Some findings, err) =>
      err = None /\ findings <> []
      /\ Forall (fun i => result_.FromLinter i = "govet") findings
  | (None, _) => True
  end.
Proof.
  unfold Govet.Run.
  destruct (Govet.Run_loop _ _ _ []) as [govetIssues|err]; [|done].
  destruct govetIssues as [|i rest]; [done|]. simpl.
  rewrite Run_convert_spec. simpl. split; [done|]. split; [done|].
  constructor; [done|]. apply Forall_forall. intros x Hx.
  apply list_elem_of_fmap in Hx as (y & -> & _). done.
Qed.

End MoreGovet.

(** ** The default exclusions *)

Lemma GetDefaultExcludePatternsStrings_loop_spec ps ret :
  config.GetDefaultExcludePatternsStrings_loop ps ret = ret ++ map config.Pattern ps.
Proof.
  revert ret. induction ps as [|p rest IH]; simpl; intros ret.
  - by rewrite app_nil_r.
  - rewrite IH. by rewrite <- app_assoc.
Qed.

(** X17: [GetDefaultExcludePatternsStrings] returns the pattern of every
    default exclusion, one string for each in the order of the list, and
    each of these strings is a regular expression that compiles. *)
Theorem GetDefaultExcludePatternsStrings_spec :
  config.GetDefaultExcludePatternsStrings
  = map config.Pattern config.DefaultExcludePatterns
  /\ Forall (fun expr => is_Some (regexp.Compile expr))
       config.GetDefaultExcludePatternsStrings.
Proof.
  assert (config.GetDefaultExcludePatternsStrings
          = map config.Pattern config.DefaultExcludePatterns) as Heq.
  { unfold config.GetDefaultExcludePatternsStrings.
    by rewrite GetDefaultExcludePatternsStrings_loop_spec. }
  split; [done|]. rewrite Heq. unfold config.DefaultExcludePatterns. simpl.
  repeat (constructor; [vm_compute; eexists; reflexivity|]). constructor.
Qed.

(** ** The image tagging tool *)

Section ToolsProperties.
Context `{Tools}.

(** Membership in a list that is written out. *)
Ltac split_in :=
  repeat match goal with
  | H : _ ∈ _ ++ _ |- _ => apply elem_of_app in H as [H|H]
  | H : _ ∈ _ :: _ |- _ => apply elem_of_cons in H as [H|H]
  | H : _ ∈ [] |- _ => apply elem_of_nil in H; destruct H
  end.

Ltac in_list :=
  solve [ assumption
        | apply elem_of_cons; first [left; reflexivity | right; in_list]
        | apply elem_of_app; first [left; in_list | right; in_list] ].

Lemma runGit_spec args :
  runGit args =
    (match (exec_Run "git" args).1.1 with
     | Some _ => Fail (gitStderr args)
     | None => Return (gitStdout args)
     end, [EvRun "git" args]).
Proof.
  unfold runGit, gitStderr, gitStdout.
  by destruct (exec_Run "git" args) as [[[e|] out] err].
Qed.

Lemma prefix_v (s : string) :
  String.prefix "v" s = true <-> s = String "v"%char (tail1 s).
Proof.
  destruct s as [|c s]; [split; discriminate|].
  change (String.prefix "v" (String c s))
    with (if ascii_dec "v"%char c then String.prefix "" s else false).
  destruct (ascii_dec "v"%char c) as [<-|Hne]; simpl.
  - split; [done|]. intros _. by destruct s.
  - split; [discriminate|]. intros Heq. by simplify_eq.
Qed.

(** X18: [getTag] of [aquarium] fails exactly when [git describe] fails,
    and the error is what git wrote to its standard error. It never fails
    on a tag that is not a semantic version: the tag is returned raw, with
    empty numbers and the flag [SemVer] false. The raw tag is git's output,
    trimmed, without one leading [v]; when it is a semantic version the
    flag is true and the numbers are its major, minor and patch numbers in
    decimal. *)
Theorem aquarium_getTag_spec :
  let describe := ["describe"; "--tags"; "--abbrev=0"] in
  let trimmed := tools_TrimSpace (gitStdout describe) in
  (gitFails describe ->
     aquarium.getTag = (Fail (gitStderr describe), [EvRun "git" describe]))
  /\ (~ gitFails describe ->
      exists tag,
        aquarium.getTag = (Return tag, [EvRun "git" describe])
        /\ (forall rest, trimmed = String "v"%char rest -> GitTag.Raw tag = rest)
        /\ (String.prefix "v" trimmed = false -> GitTag.Raw tag = trimmed)
        /\ match semver_Make (GitTag.Raw tag) with
           | Ok v =>
               GitTag.SemVer tag = true
               /\ GitTag.Major tag = pretty (semver.Major v)
               /\ GitTag.Minor tag = pretty (semver.Minor v)
               /\ GitTag.Patch tag = pretty (semver.Patch v)
           | Err _ =>
               GitTag.SemVer tag = false
               /\ GitTag.Major tag = "" /\ GitTag.Minor tag = ""
               /\ GitTag.Patch tag = ""
           end).
Proof.
  intros describe trimmed. unfold aquarium.getTag, gitFails.
  rewrite runGit_spec. fold describe.
  destruct (exec_Run "git" describe).1.1 as [e|] eqn:Hrun; simpl.
  - split; [done|]. intros Hok. destruct Hok. eauto.
  - split; [by intros [? ?]|]. intros _. fold trimmed.
    assert ((forall rest, trimmed = String "v"%char rest ->
               (if String.prefix "v" trimmed then tail1 trimmed else trimmed) = rest)
            /\ (String.prefix "v" trimmed = false ->
                (if String.prefix "v" trimmed then tail1 trimmed else trimmed) = trimmed))
      as [Hv Hnov].
    { split.
      - intros rest Heq.
        assert (String.prefix "v" trimmed = true) as ->
          by (apply prefix_v; by rewrite Heq).
        by rewrite Heq.
      - by intros ->. }
    destruct (semver_Make (if String.prefix "v" trimmed then tail1 trimmed else trimmed))
      as [v|err] eqn:Hsem; simpl;
      eexists; (split; [reflexivity|]); simpl; rewrite Hsem; done.
Qed.

(** X19: the two versions of [getTag] run the same command and agree on
    the error, the raw tag and the numbers; they differ in the flag
    [SemVer] only, which the first version sets whatever the tag is, and
    the later one exactly when the tag is a semantic version. *)
Theorem getTag_versions :
  match aquatic.getTag, aquarium.getTag with
  | (Return old, tr), (Return new, tr') =>
      tr = tr'
      /\ GitTag.Raw old = GitTag.Raw new
      /\ GitTag.Major old = GitTag.Major new
      /\ GitTag.Minor old = GitTag.Minor new
      /\ GitTag.Patch old = GitTag.Patch new
      /\ GitTag.SemVer old = true
      /\ (GitTag.SemVer new = true <->
          exists v, semver_Make (GitTag.Raw new) = Ok v)
  | (Fail e, tr), (Fail e', tr') => e = e' /\ tr = tr'
  | _, _ => False
  end.
Proof.
  unfold aquatic.getTag, aquarium.getTag. rewrite runGit_spec.
  destruct (exec_Run "git" _).1.1 as [e|]; simpl; [done|].
  destruct (semver_Make _) as [v|err] eqn:Hsem; simpl; rewrite Hsem;
    repeat split; try done; eauto.
  by intros [? ?].
Qed.

(** X20: [getGitInfo] succeeds exactly when the four git commands succeed,
    which it runs in the order describe, full hash, short hash, branch; it
    then returns the trimmed hashes and branch name. At the first command
    that fails it stops: the error is what that command wrote to its
    standard error, and the commands after it are not run. *)
Theorem getGitInfo_spec :
  ((forall args, args ∈ gitInfoCommands -> ~ gitFails args) ->
     exists info,
       aquarium.getGitInfo = (Return info, map (EvRun "git") gitInfoCommands)
       /\ LongHash (Commit info)
          = tools_TrimSpace (gitStdout ["rev-parse"; "HEAD"])
       /\ ShortHash (Commit info)
          = tools_TrimSpace (gitStdout ["rev-parse"; "--short"; "HEAD"])
       /\ Name (Branch info)
          = tools_TrimSpace (gitStdout ["rev-parse"; "--abbrev-ref"; "HEAD"]))
  /\ (forall pre args post,
        gitInfoCommands = pre ++ args :: post ->
        (forall a, a ∈ pre -> ~ gitFails a) ->
        gitFails args ->
        aquarium.getGitInfo
        = (Fail (gitStderr args), map (EvRun "git") (pre ++ [args]))).
Proof.
  assert (forall args, ~ gitFails args -> (exec_Run "git" args).1.1 = None) as Hok.
  { intros args Hnot. unfold gitFails in Hnot.
    destruct (exec_Run "git" args).1.1; [|done]. destruct Hnot. eauto. }
  assert (forall args, gitFails args -> exists e, (exec_Run "git" args).1.1 = Some e)
    as Hfail by (intros args [e He]; eauto).
  unfold aquarium.getGitInfo, aquarium.getTag, getCommit, getBranch,
    gitInfoCommands. split.
  - intros Hall. rewrite !runGit_spec.
    rewrite !Hok by (apply Hall; in_list). simpl.
    destruct (semver_Make _); simpl; eexists; (split; [reflexivity|]); done.
  - intros pre args post Hsplit Hpre Hargs.
    destruct (Hfail _ Hargs) as [e He].
    destruct pre as [|a1 [|a2 [|a3 [|a4 pre]]]]; simpl in Hsplit; simplify_eq;
      rewrite !runGit_spec.
    + by rewrite He.
    + rewrite Hok by (apply Hpre; in_list). simpl.
      destruct (semver_Make _); simpl; by rewrite He.
    + rewrite !Hok by (apply Hpre; in_list). simpl.
      destruct (semver_Make _); simpl; by rewrite He.
    + rewrite !Hok by (apply Hpre; in_list). simpl.
      destruct (semver_Make _); simpl; by rewrite He.
    + by destruct pre.
Qed.

(** X21: the first [main] prints all or nothing. It never returns an
    error. When the four git commands succeed it returns after printing
    three lines, the tag, the branch and the commit; when one fails it
    panics with what that command wrote to its standard error, having
    printed nothing. *)
Theorem aquatic_main_all_or_nothing :
  match aquatic.main with
  | (Return _, tr) =>
      (forall args, args ∈ gitInfoCommands -> ~ gitFails args)
      /\ exists tag branch commit,
           tr = map (EvRun "git") gitInfoCommands
                ++ [EvPrintf ("Tag: " +:+ tag);
                    EvPrintf ("Branch: " +:+ branch);
                    EvPrintf ("Commit: " +:+ commit)]
  | (Panic msg, tr) =>
      (exists args, args ∈ gitInfoCommands /\ gitFails args /\ msg = gitStderr args)
      /\ forall text, EvPrintf text ∉ tr
  | (Fail _, _) => False
  end.
Proof.
  unfold aquatic.main, aquatic.getTag, getCommit, getBranch, gitInfoCommands.
  rewrite !runGit_spec. unfold gitFails.
  destruct (exec_Run "git" ["describe"; "--tags"; "--abbrev=0"]).1.1 eqn:H1; simpl.
  { split; [|intros text Hin; by split_in].
    eexists. split; [|split; [|reflexivity]]; [in_list|]. rewrite H1. eauto. }
  destruct (semver_Make _) as [v|err]; simpl.
  all: destruct (exec_Run "git" ["rev-parse"; "HEAD"]).1.1 eqn:H2; simpl;
    [split; [|intros text Hin; by split_in];
     eexists; split; [|split; [|reflexivity]]; [in_list|]; rewrite H2; eauto|].
  all: destruct (exec_Run "git" ["rev-parse"; "--short"; "HEAD"]).1.1 eqn:H3; simpl;
    [split; [|intros text Hin; by split_in];
     eexists; split; [|split; [|reflexivity]]; [in_list|]; rewrite H3; eauto|].
  all: destruct (exec_Run "git" ["rev-parse"; "--abbrev-ref"; "HEAD"]).1.1 eqn:H4; simpl;
    [split; [|intros text Hin; by split_in];
     eexists; split; [|split; [|reflexivity]]; [in_list|]; rewrite H4; eauto|].
  all: split; [intros args Hin [e He]; split_in; simplify_eq; congruence|].
  all: by eexists _, _, _.
Qed.

Lemma setTag_loop_ok flags name tmplData tagFormats docker ts images :
  Forall2 (fun f t => template_Parse f = Ok t) tagFormats ts ->
  (forall t, t ∈ ts ->
     docker_ImageTag docker (imgID flags) (imageName name tmplData t) = None) ->
  aquarium.setTag_loop flags name tmplData tagFormats docker images
  = (Return (match ts with
             | [] => images
             | _ => Some (default [] images ++ map (imageName name tmplData) ts)
             end),
     map (fun t => EvImageTag (imgID flags) (imageName name tmplData t) None) ts).
Proof.
  intros Hparse. revert images.
  induction Hparse as [|f t fs ts Hf Hfs IH]; intros images Hdocker; [done|].
  simpl. rewrite Hf. simpl. fold (imageName name tmplData t).
  rewrite (Hdocker t) by left. simpl.
  rewrite IH by (intros t' Ht'; apply Hdocker; by right).
  unfold go_append. simpl. destruct ts; simpl; [done|].
  by rewrite <- app_assoc.
Qed.

Lemma setTag_loop_events flags name tmplData tagFormats docker images :
  forall e, e ∈ (aquarium.setTag_loop flags name tmplData tagFormats docker images).2 ->
            exists imgName r, e = EvImageTag (imgID flags) imgName r.
Proof.
  revert images. induction tagFormats as [|f fs IH]; intros images e; simpl.
  - intros Hin. by apply elem_of_nil in Hin.
  - destruct (template_Parse f) as [t|err]; simpl;
      [|intros Hin; by apply elem_of_nil in Hin].
    destruct (docker_ImageTag _ _ _) as [err|]; simpl.
    + intros Hin. apply list_elem_of_singleton in Hin. eauto.
    + specialize (IH (go_append images (name +:+ ":" +:+ template_Execute t tmplData)) e).
      destruct (aquarium.setTag_loop _ _ _ fs _ _) as [o tr]. simpl in *.
      intros Hin. apply elem_of_cons in Hin as [->|Hin]; eauto.
Qed.

(** X22: when every tag template parses and the daemon takes every tag,
    [setTag] tags the image once for each template, in their order, under
    the name, a colon and the rendered template, and returns these image
    names in the same order; with no template at all it returns a nil
    slice. *)
Theorem setTag_tags_all (flags : Flags) (name : string)
    (tmplData : AquariumTemplate) (tagFormats : list string)
    (docker : DockerClient) (ts : list Template) :
  Forall2 (fun f t => template_Parse f = Ok t) tagFormats ts ->
  (forall t, t ∈ ts ->
     docker_ImageTag docker (imgID flags) (imageName name tmplData t) = None) ->
  aquarium.setTag flags name tmplData tagFormats docker
  = (Return (match ts with
             | [] => None
             | _ => Some (map (imageName name tmplData) ts)
             end),
     map (fun t => EvImageTag (imgID flags) (imageName name tmplData t) None) ts).
Proof.
  intros Hparse Hdocker. unfold aquarium.setTag.
  by rewrite (setTag_loop_ok _ _ _ _ _ ts None Hparse Hdocker).
Qed.

Lemma setTag_loop_app flags name tmplData pre rest docker ts images :
  Forall2 (fun f t => template_Parse f = Ok t) pre ts ->
  (forall t, t ∈ ts ->
     docker_ImageTag docker (imgID flags) (imageName name tmplData t) = None) ->
  exists images',
    aquarium.setTag_loop flags name tmplData (pre ++ rest) docker images
    = bindT (Return tt,
             map (fun t => EvImageTag (imgID flags) (imageName name tmplData t) None) ts)
        (fun _ => aquarium.setTag_loop flags name tmplData rest docker images').
Proof.
  intros Hparse. revert images.
  induction Hparse as [|f t fs ts Hf Hfs IH]; intros images Hdocker.
  - exists images. simpl. by destruct (aquarium.setTag_loop _ _ _ rest _ _).
  - simpl. rewrite Hf. simpl. fold (imageName name tmplData t).
    rewrite (Hdocker t) by left.
    destruct (IH (go_append images (imageName name tmplData t)))
      as [images' ->]; [intros t' Ht'; apply Hdocker; by right|].
    exists images'. simpl.
    by destruct (aquarium.setTag_loop _ _ _ rest _ _).
Qed.

(** X23: [setTag] stops at the first template that goes wrong and undoes
    nothing. When the daemon refuses a tag, [setTag] returns a nil slice
    and the daemon's error: the tags of the templates before are applied
    and stay, the names collected for them are dropped, and the templates
    after are not looked at. When a template does not parse, [setTag]
    panics with the parse error, the tags of the templates before being
    applied as well. *)
Theorem setTag_stops_at_first_failure (flags : Flags) (name : string)
    (tmplData : AquariumTemplate) (docker : DockerClient)
    (pre : list string) (f : string) (post : list string) (ts : list Template) :
  Forall2 (fun f t => template_Parse f = Ok t) pre ts ->
  (forall t, t ∈ ts ->
     docker_ImageTag docker (imgID flags) (imageName name tmplData t) = None) ->
  (forall t err,
      template_Parse f = Ok t ->
      docker_ImageTag docker (imgID flags) (imageName name tmplData t) = Some err ->
      aquarium.setTag flags name tmplData (pre ++ f :: post) docker
      = (Fail err,
         map (fun t => EvImageTag (imgID flags) (imageName name tmplData t) None) ts
         ++ [EvImageTag (imgID flags) (imageName name tmplData t) (Some err)]))
  /\ (forall e,
        template_Parse f = Err e ->
        aquarium.setTag flags name tmplData (pre ++ f :: post) docker
        = (Panic e,
           map (fun t => EvImageTag (imgID flags) (imageName name tmplData t) None) ts)).
Proof.
  intros Hparse Hdocker. unfold aquarium.setTag.
  destruct (setTag_loop_app flags name tmplData pre (f :: post) docker ts None
              Hparse Hdocker) as [images' ->].
  split.
  - intros t err Hf Herr. simpl. rewrite Hf. simpl.
    fold (imageName name tmplData t). by rewrite Herr.
  - intros e Hf. simpl. rewrite Hf. simpl. by rewrite app_nil_r.
Qed.

Lemma elem_of_concat {A} (x : A) (ls : list (list A)) :
  x ∈ List.concat ls <-> exists l, x ∈ l /\ l ∈ ls.
Proof.
  induction ls as [|l ls IH]; simpl.
  - split; [intros Hin; by apply elem_of_nil in Hin|].
    intros (l & _ & Hl). by apply elem_of_nil in Hl.
  - rewrite elem_of_app, IH. split.
    + intros [Hin|(l' & Hin & Hl')].
      * exists l. split; [done|left].
      * exists l'. split; [done|by right].
    + intros (l' & Hin & Hl'). apply elem_of_cons in Hl' as [->|Hl']; eauto.
Qed.

Lemma printImgs_events flags taggedImgs :
  forall e, e ∈ (aquarium.printImgs flags taggedImgs).2 -> exists text, e = EvPrintf text.
Proof.
  unfold aquarium.printImgs.
  destruct (String.eqb (outputFormat flags) "text").
  - induction (default [] taggedImgs) as [|img rest IH]; simpl; intros e Hin.
    + by apply elem_of_nil in Hin.
    + destruct (aquarium.printImgs_text rest) as [[?|?|?] tr]; simpl in *;
        apply elem_of_cons in Hin as [->|Hin]; eauto.
  - destruct (String.eqb (outputFormat flags) "json"); simpl.
    + destruct (json_Marshal taggedImgs); simpl; intros ev Hin; split_in; eauto.
    + intros e Hin. by apply elem_of_nil in Hin.
Qed.

Lemma main_loop_ok flags tmplData tagFormats docker names taggedImgs :
  (forall name, name ∈ names ->
     exists imgs, (aquarium.setTag flags name tmplData tagFormats docker).1 = Return imgs) ->
  aquarium.main_loop flags tmplData tagFormats docker names taggedImgs
  = (Return (match last names with
             | Some name =>
                 match (aquarium.setTag flags name tmplData tagFormats docker).1 with
                 | Return imgs => imgs
                 | _ => None
                 end
             | None => taggedImgs
             end),
     List.concat
       (map (fun name => (aquarium.setTag flags name tmplData tagFormats docker).2)
          names)).
Proof.
  revert taggedImgs. induction names as [|name rest IH]; intros taggedImgs Hall; [done|].
  simpl. destruct (Hall name) as [imgs Himgs]; [left|].
  destruct (aquarium.setTag flags name tmplData tagFormats docker) as [o tr] eqn:Hset.
  simpl in Himgs. subst o. simpl.
  rewrite IH by (intros n Hn; apply Hall; by right). simpl.
  destruct rest as [|name' rest]; [simpl; by rewrite Hset|].
  rewrite last_cons_cons.
  destruct (last (name' :: rest)) as [lastName|] eqn:Hlast; [done|].
  by apply last_None in Hlast.
Qed.

(** X24: [main] of [aquarium] tags the image under every name of the
    configuration and reports the names of the last one only. When the
    configuration is read, the git metadata is found, the docker client is
    made and [setTag] succeeds for every image name, [main] ends as
    [printImgs] does on the images [setTag] returned for the last name;
    what it does before printing holds the tagging of every name and no
    output, and its output is that of [printImgs] on the last name's
    images. *)
Theorem aquarium_main_reports_last (flags : Flags) data config tmplData
    gitTrace docker names lastName imgs lastTrace :
  ioutil_ReadFile ".aquarium.yml" = Ok data ->
  yaml_Unmarshal data = Ok config ->
  aquarium.getGitInfo = (Return tmplData, gitTrace) ->
  client_NewEnvClient = Ok docker ->
  ImageNames config = names ++ [lastName] ->
  (forall name, name ∈ names ->
     exists imgs, (aquarium.setTag flags name tmplData (TagFormat config) docker).1
                  = Return imgs) ->
  aquarium.setTag flags lastName tmplData (TagFormat config) docker
  = (Return imgs, lastTrace) ->
  exists before,
    aquarium.main flags
    = ((aquarium.printImgs flags imgs).1,
       before ++ (aquarium.printImgs flags imgs).2)
    /\ (forall text, EvPrintf text ∉ before)
    /\ (forall name e,
          name ∈ ImageNames config ->
          e ∈ (aquarium.setTag flags name tmplData (TagFormat config) docker).2 ->
          e ∈ before).
Proof.
  intros Hread Hyaml Hgit Hclient Hnames Hall Hlast.
  assert (forall name, name ∈ names ++ [lastName] ->
            exists imgs, (aquarium.setTag flags name tmplData (TagFormat config) docker).1
                         = Return imgs) as Hall'.
  { intros name Hin. apply elem_of_app in Hin as [Hin|Hin]; [by apply Hall|].
    apply list_elem_of_singleton in Hin as ->. rewrite Hlast. eauto. }
  exists (EvReadFile ".aquarium.yml" :: gitTrace
          ++ List.concat
               (map (fun name =>
                       (aquarium.setTag flags name tmplData (TagFormat config) docker).2)
                  (names ++ [lastName]))).
  split; [|split].
  - unfold aquarium.main. rewrite Hread. simpl. rewrite Hyaml. simpl.
    rewrite Hgit. simpl. rewrite Hclient. simpl. rewrite Hnames.
    rewrite (main_loop_ok _ _ _ _ _ None Hall'). simpl.
    rewrite last_snoc, Hlast. simpl.
    destruct (aquarium.printImgs flags imgs) as [o tr]. simpl.
    by rewrite <- app_assoc.
  - intros text Hin. apply elem_of_cons in Hin as [?|Hin]; [done|].
    apply elem_of_app in Hin as [Hin|Hin].
      assert (forall e, e ∈ gitTrace -> exists args, e = EvRun "git" args) as Hruns.
      { revert Hgit. unfold aquarium.getGitInfo, aquarium.getTag, getCommit, getBranch.
        rewrite !runGit_spec.
        repeat (match goal with
                | |- context [match ?x with Some _ => _ | None => _ end] =>
                    destruct x; simpl
                | |- context [semver_Make ?x] => destruct (semver_Make x); simpl
                end);
          intros Heq ev Hev; simplify_eq; split_in; eauto. }
      by destruct (Hruns _ Hin).
    + apply elem_of_concat in Hin as (tr & Hin & Htr).
      apply list_elem_of_fmap in Htr as (name & -> & _).
      by apply setTag_loop_events in Hin as (? & ? & ?).
  - intros name e Hname He. right. apply elem_of_app. right.
    apply elem_of_concat. eexists. split; [exact He|].
    apply list_elem_of_fmap. exists name. split; [done|]. by rewrite <- Hnames.
Qed.

End ToolsProperties.

(** * The code at work in the sample world *)

#[local] Existing Instance sampleExtern.

Example isFullImportNeeded_sample :
  isFullImportNeeded [gofmt] = false /\ isFullImportNeeded [gofmt; errcheck] = true
  /\ isSSAReprNeeded [gofmt; errcheck] = false
  /\ isSSAReprNeeded [errcheck; megacheck] = true.
Proof. repeat split; reflexivity. Qed.

Example normalizePaths_sample :
  normalizePaths ["/src/app/pkg/a"; "cmd"; "./x"] sampleWorld
  = (Return ["./pkg/a"; "./cmd"; "././x"], sampleWorld, []).
Proof. reflexivity. Qed.

Example normalizePaths_sample_error :
  normalizePaths ["cmd"; "/etc/passwd"; "/src/app/pkg"] sampleWorld
  = (Fail "can't get relative path for path /etc/passwd and root /src/app: Rel: can't make /etc/passwd relative to /src/app",
     sampleWorld, []).
Proof. reflexivity. Qed.

Example discoverGoRoot_sample :
  discoverGoRoot sampleWorld
  = (Return "/usr/local/go", sampleWorld,
     [EvExec "go" ["env"; "GOROOT"] (Ok ("/usr/local/go" +:+ String "010"%char ""))]).
Proof. reflexivity. Qed.

Example separateNotCompilingPackages_sample :
  exists lintCtx',
    separateNotCompilingPackages sampleContext = Some lintCtx'
    /\ linter.NotCompilingPackages lintCtx' = [pkgBroken; pkgDep]
    /\ (createdOf <$> linter.Program lintCtx') = Some [pkgMain]
    /\ (map_to_list <$> (importedOf <$> linter.Program lintCtx'))
       = Some [("fmt", pkgFmt)].
Proof. eexists. split; [reflexivity|]. vm_compute. done. Qed.

Example LoadContext_sample_fast :
  match LoadContext [gofmt] sampleConfig sampleWorld with
  | (Return ctx, w', tr) =>
      linter.Program ctx = None /\ linter.SSAProgram ctx = None
      /\ os_Getenv "GOROOT" w' = "/usr/local/go"
      /\ List.length tr = 6
  | _ => False
  end.
Proof. vm_compute. done. Qed.

Example LoadContext_sample_full :
  match LoadContext [gofmt; megacheck] sampleConfig sampleWorld with
  | (Return ctx, w', tr) =>
      linter.NotCompilingPackages ctx = [pkgBroken; pkgDep]
      /\ (createdOf <$> linter.Program ctx) = Some [pkgMain]
      /\ linter.SSAProgram ctx = Some (sampleProgram, true)
      /\ linter.ASTCache ctx = ["app"; "app/broken"]
  | _ => False
  end.
Proof. vm_compute. done. Qed.

Example Govet_Run_sample :
  Govet.Run sampleContext = (None, Some "can't parse broken.go").
Proof. reflexivity. Qed.

(** The sample world's [range] visits every key of the map. *)
Lemma sampleExtern_rangeVisitsAll (m : gmap string loader.PackageInfo) :
  rangeVisitsAll m.
Proof.
  intros k [info Hk]. simpl. apply list_elem_of_fmap. exists (k, info).
  split; [done|]. by apply elem_of_map_to_list.
Qed.

(** The partition theorem at the sample program: [pkgBroken] and [pkgDep]
    carry errors, [pkgMain] and [pkgFmt] do not. *)
Lemma separateNotCompilingPackages_partition_witness :
  linter.Program sampleContext = Some sampleProgram
  /\ rangeVisitsAll (importedOf sampleProgram)
  /\ exists lintCtx' prog',
       separateNotCompilingPackages sampleContext = Some lintCtx'
       /\ linter.Program lintCtx' = Some prog'
       /\ (forall info, loaded sampleProgram info -> ~ compiles info ->
             info ∈ linter.NotCompilingPackages lintCtx'
             /\ (info ∉ createdOf prog')
             /\ ~ inImported prog' info)
       /\ (forall info, compiles info ->
             (info ∈ createdOf sampleProgram -> info ∈ createdOf prog')
             /\ (forall k, importedOf sampleProgram !! k = Some info ->
                   importedOf prog' !! k = Some info)).
Proof.
  split; [reflexivity|]. split; [apply sampleExtern_rangeVisitsAll|].
  apply (separateNotCompilingPackages_partition sampleContext sampleProgram).
  - reflexivity.
  - apply sampleExtern_rangeVisitsAll.
Defined.

(** The conservation theorem at the sample program. *)
Lemma separateNotCompilingPackages_conserves_witness :
  linter.Program sampleContext = Some sampleProgram
  /\ rangeVisitsAll (importedOf sampleProgram)
  /\ exists lintCtx' prog' added,
       separateNotCompilingPackages sampleContext = Some lintCtx'
       /\ linter.Program lintCtx' = Some prog'
       /\ createdOf sampleProgram ++ importedList sampleProgram
            ≡ₚ createdOf prog' ++ importedList prog' ++ added
       /\ createdOf prog' = filter compiles (createdOf sampleProgram)
       /\ linter.NotCompilingPackages lintCtx' =
            linter.NotCompilingPackages sampleContext ++ added
       /\ (forall info,
             loaded sampleProgram info ->
             ~ (info ∈ createdOf sampleProgram /\ inImported sampleProgram info) ->
             info ∉ linter.NotCompilingPackages sampleContext ->
             exactlyOne (info ∈ createdOf prog') (inImported prog' info)
                        (info ∈ linter.NotCompilingPackages lintCtx')).
Proof.
  split; [reflexivity|]. split; [apply sampleExtern_rangeVisitsAll|].
  apply (separateNotCompilingPackages_conserves sampleContext sampleProgram).
  - reflexivity.
  - apply sampleExtern_rangeVisitsAll.
Defined.

(** The skipped loader at the analyzer list [[gofmt]], which needs no
    program. *)
Lemma loadWholeAppIfNeeded_skipped_witness :
  (forall l, l ∈ [gofmt] -> linter.NeedsProgramLoading l = false)
  /\ (forall cfg pkgProg w,
        loadWholeAppIfNeeded [gofmt] cfg pkgProg w = (Return (None, None), w, []))
  /\ (forall cfg w,
        match LoadContext [gofmt] cfg w with
        | (o, _, tr) =>
            (forall e, e ∈ tr -> ~ isLoaderEvent e /\ ~ isSSAEvent e)
            /\ (forall ctx, o = Return ctx ->
                  linter.Program ctx = None
                  /\ linter.LoaderConfig ctx = None
                  /\ linter.SSAProgram ctx = None)
        end).
Proof.
  assert (forall l, l ∈ [gofmt] -> linter.NeedsProgramLoading l = false) as Hfast.
  { intros l Hl. apply list_elem_of_singleton in Hl. subst l. reflexivity. }
  split; [exact Hfast|].
  apply (loadWholeAppIfNeeded_skipped [gofmt]). exact Hfast.
Defined.

(** ** The further properties at work *)


(** The loader at the analyzer list [[gofmt; errcheck]]: [errcheck] needs
    the program. *)
Lemma loadWholeAppIfNeeded_logs_last_witness :
  (exists l, l ∈ [gofmt; errcheck] /\ linter.NeedsProgramLoading l = true)
  /\ match loadWholeAppIfNeeded [gofmt; errcheck] (config.Run_ sampleConfig)
             (linter.PkgProgram sampleContext) sampleWorld with
     | (o, w', tl) =>
         w' = sampleWorld
         /\ (forall msg, o <> Panic msg)
         /\ exists body,
              tl = body ++ [EvLogInfo "Program loading took %s"]
              /\ forall format, EvLogInfo format ∉ body
     end.
Proof.
  assert (exists l, l ∈ [gofmt; errcheck]
                    /\ linter.NeedsProgramLoading l = true) as Hneeded.
  { exists errcheck. split; [|reflexivity].
    apply elem_of_cons. right. apply elem_of_cons. by left. }
  split; [exact Hneeded|].
  apply (loadWholeAppIfNeeded_logs_last [gofmt; errcheck]
           (config.Run_ sampleConfig) (linter.PkgProgram sampleContext)
           sampleWorld Hneeded).
Defined.

(** Two relative paths under the working directory [/src/app]. *)
Lemma normalizePaths_relative_witness :
  os_Getwd sampleWorld = Ok "/src/app"
  /\ (forall p, p ∈ ["cmd"; "pkg/a"] -> filepath_IsAbs p = false)
  /\ normalizePaths ["cmd"; "pkg/a"] sampleWorld
     = (Return ["./cmd"; "./pkg/a"], sampleWorld, []).
Proof.
  assert (forall p, p ∈ ["cmd"; "pkg/a"] -> filepath_IsAbs p = false) as Hrel.
  { intros p Hp. apply elem_of_cons in Hp as [->|Hp]; [reflexivity|].
    apply list_elem_of_singleton in Hp. subst p. reflexivity. }
  split; [reflexivity|]. split; [exact Hrel|].
  apply (normalizePaths_relative ["cmd"; "pkg/a"] sampleWorld "/src/app").
  - reflexivity.
  - exact Hrel.
Defined.

Lemma cleanProgram_compiles (info : loader.PackageInfo) :
  loaded cleanProgram info -> compiles info.
Proof.
  intros [Hin|Hin].
  - apply list_elem_of_singleton in Hin. subst info. reflexivity.
  - destruct Hin as [k Hk].
    change (importedOf cleanProgram) with (<["fmt" := pkgFmt]> ∅ : gmap _ _) in Hk.
    apply lookup_insert_Some in Hk as [[_ <-]|[_ Hk]]; [reflexivity|].
    by rewrite lookup_empty in Hk.
Qed.

(** A program without errors is left as it is. *)
Lemma separateNotCompilingPackages_clean_witness :
  linter.Program cleanContext = Some cleanProgram
  /\ (forall info, loaded cleanProgram info -> compiles info)
  /\ separateNotCompilingPackages cleanContext = Some cleanContext.
Proof.
  split; [reflexivity|]. split; [exact cleanProgram_compiles|].
  apply (separateNotCompilingPackages_clean cleanContext cleanProgram).
  - reflexivity.
  - exact cleanProgram_compiles.
Defined.

(** The sample context, partitioned once and then again. *)
Lemma separateNotCompilingPackages_idempotent_witness :
  linter.Program sampleContext = Some sampleProgram
  /\ rangeVisitsAll (importedOf sampleProgram)
  /\ separateNotCompilingPackages sampleContext = Some partitionedContext
  /\ separateNotCompilingPackages partitionedContext = Some partitionedContext.
Proof.
  split; [reflexivity|]. split; [apply sampleExtern_rangeVisitsAll|].
  split; [vm_compute; reflexivity|].
  apply (separateNotCompilingPackages_idempotent sampleContext
           partitionedContext sampleProgram).
  - reflexivity.
  - apply sampleExtern_rangeVisitsAll.
  - vm_compute. reflexivity.
Defined.


(** A full run in the sample world, whose map iteration visits every
    entry. *)
Lemma LoadContext_partitioned_witness :
  (forall m, rangeVisitsAll m)
  /\ match LoadContext [gofmt; megacheck] sampleConfig sampleWorld with
     | (o, _, tr) =>
         forall ctx, o = Return ctx ->
           linter.Cfg ctx = sampleConfig
           /\ (exists args, EvResolve args (Ok (linter.PkgProgram ctx)) ∈ tr)
           /\ Forall (fun info => ~ compiles info)
                (linter.NotCompilingPackages ctx)
           /\ (forall prog', linter.Program ctx = Some prog' ->
                 forall info, loaded prog' info -> compiles info)
           /\ (forall prog, programLoaded tr prog ->
                 forall info,
                   info ∈ linter.NotCompilingPackages ctx
                   <-> loaded prog info /\ ~ compiles info)
     end.
Proof.
  split; [exact sampleExtern_rangeVisitsAll|].
  apply (LoadContext_partitioned [gofmt; megacheck] sampleConfig sampleWorld
           sampleExtern_rangeVisitsAll).
Defined.

Lemma cleanContext_vets (pkg : packages.Package.t) :
  pkg ∈ packages.Program.Packages (linter.PkgProgram cleanContext) ->
  exists issues,
    govetAPI_Run
      (packages.Package.Files pkg
         (config.AnalyzeTests (config.Run_ (linter.Cfg cleanContext))))
      (config.CheckShadowing (config.Govet (linter.Settings cleanContext)))
    = Ok issues.
Proof.
  intros Hin. simpl in Hin.
  repeat (apply elem_of_cons in Hin as [->|Hin]; [by eexists|]).
  by apply elem_of_nil in Hin.
Qed.

(** Three packages that vet without error, one of them without files. *)
Lemma Govet_Run_findings_witness :
  Govet.Run cleanContext
  = (match vetIssues (packages.Program.Packages (linter.PkgProgram cleanContext))
             (config.AnalyzeTests (config.Run_ (linter.Cfg cleanContext)))
             (config.CheckShadowing
                (config.Govet (linter.Settings cleanContext))) with
     | [] => None
     | issues => Some (map toIssue issues)
     end, None).
Proof.
  apply (Govet_Run_findings cleanContext). exact cleanContext_vets.
Defined.

#[local] Existing Instance sampleTools.

(** Both tags of the configuration, given to the image [registry/app]. *)
Lemma setTag_tags_all_witness :
  Forall2 (fun f t => template_Parse f = Ok t)
    ["{{tag}}"; "stable"] ["{{tag}}"; "stable"]
  /\ (forall t, t ∈ ["{{tag}}"; "stable"] ->
        docker_ImageTag tt (imgID sampleFlags)
          (imageName "registry/app" sampleTemplate t) = None)
  /\ aquarium.setTag sampleFlags "registry/app" sampleTemplate
       ["{{tag}}"; "stable"] tt
     = (Return (Some ["registry/app:1.4.2"; "registry/app:stable"]),
        [EvImageTag "sha256:abc" "registry/app:1.4.2" None;
         EvImageTag "sha256:abc" "registry/app:stable" None]).
Proof.
  assert (Forall2 (fun f t => template_Parse f = Ok t)
            ["{{tag}}"; "stable"] ["{{tag}}"; "stable"]) as Hparse.
  { repeat constructor. }
  assert (forall t, t ∈ ["{{tag}}"; "stable"] ->
            docker_ImageTag tt (imgID sampleFlags)
              (imageName "registry/app" sampleTemplate t) = None) as Htag.
  { intros t Ht. apply elem_of_cons in Ht as [->|Ht]; [reflexivity|].
    apply list_elem_of_singleton in Ht. subst t. reflexivity. }
  split; [exact Hparse|]. split; [exact Htag|].
  apply (@setTag_tags_all sampleTools sampleFlags "registry/app" sampleTemplate
           ["{{tag}}"; "stable"] tt ["{{tag}}"; "stable"] Hparse Htag).
Defined.

(** The daemon refuses [app:latest]: the tag after it is never asked for,
    the one before it stays. *)
Lemma setTag_stops_at_first_failure_witness :
  Forall2 (fun f t => template_Parse f = Ok t) ["stable"] ["stable"]
  /\ (forall t, t ∈ ["stable"] ->
        docker_ImageTag tt (imgID sampleFlags)
          (imageName "app" sampleTemplate t) = None)
  /\ aquarium.setTag sampleFlags "app" sampleTemplate
       (["stable"] ++ "latest" :: ["{{tag}}"]) tt
     = (Fail "Error response from daemon: refusing latest",
        [EvImageTag "sha256:abc" "app:stable" None;
         EvImageTag "sha256:abc" "app:latest"
           (Some "Error response from daemon: refusing latest")]).
Proof.
  assert (Forall2 (fun f t => template_Parse f = Ok t) ["stable"] ["stable"])
    as Hparse.
  { repeat constructor. }
  assert (forall t, t ∈ ["stable"] ->
            docker_ImageTag tt (imgID sampleFlags)
              (imageName "app" sampleTemplate t) = None) as Htag.
  { intros t Ht. apply list_elem_of_singleton in Ht. subst t. reflexivity. }
  split; [exact Hparse|]. split; [exact Htag|].
  apply (proj1 (@setTag_stops_at_first_failure sampleTools sampleFlags "app" sampleTemplate
                  tt ["stable"] "latest" ["{{tag}}"] ["stable"] Hparse Htag)
           "latest" "Error response from daemon: refusing latest");
    reflexivity.
Defined.

Lemma sampleTools_app_tagged (name : string) :
  name ∈ ["app"] ->
  exists imgs,
    (aquarium.setTag sampleFlags name sampleTemplate
       (TagFormat sampleAquariumConfig) tt).1 = Return imgs.
Proof.
  intros Hin. apply list_elem_of_singleton in Hin. subst name.
  by eexists.
Qed.

(** Two image names in the configuration: the tool prints the tags of the
    second and has tagged both. *)
Lemma aquarium_main_reports_last_witness :
  ioutil_ReadFile ".aquarium.yml" = Ok "image_names: [app, registry/app]"
  /\ yaml_Unmarshal "image_names: [app, registry/app]" = Ok sampleAquariumConfig
  /\ aquarium.getGitInfo
     = (Return sampleTemplate, map (EvRun "git") gitInfoCommands)
  /\ client_NewEnvClient = Ok tt
  /\ ImageNames sampleAquariumConfig = ["app"] ++ ["registry/app"]
  /\ exists before,
       aquarium.main sampleFlags
       = ((aquarium.printImgs sampleFlags
             (Some ["registry/app:1.4.2"; "registry/app:stable"])).1,
          before
          ++ (aquarium.printImgs sampleFlags
                (Some ["registry/app:1.4.2"; "registry/app:stable"])).2)
       /\ (forall text, EvPrintf text ∉ before)
       /\ (forall name e,
             name ∈ ImageNames sampleAquariumConfig ->
             e ∈ (aquarium.setTag sampleFlags name sampleTemplate
                    (TagFormat sampleAquariumConfig) tt).2 ->
             e ∈ before).
Proof.
  repeat (split; [reflexivity|]).
  apply (@aquarium_main_reports_last sampleTools sampleFlags
           "image_names: [app, registry/app]" sampleAquariumConfig
           sampleTemplate (map (EvRun "git") gitInfoCommands) tt
           ["app"] "registry/app"
           (Some ["registry/app:1.4.2"; "registry/app:stable"])
           [EvImageTag "sha256:abc" "registry/app:1.4.2" None;
            EvImageTag "sha256:abc" "registry/app:stable" None]);
    try reflexivity.
  exact sampleTools_app_tagged.
Defined.
